(** * Patreon membership history exporter: a shallow embedding of [content.js]

    The development follows the class [PatreonDataExporter]: the currency
    formatter ([formatCurrency]), the paginated fetch loop ([fetchYearData]),
    the aggregation of bills per creator and year ([processBillsData]) and the
    rendering of the table ([generateCSV]).

    Conventions of the embedding.
    - A JavaScript number is a binary64 float.  The numbers that hold
      minor-unit amounts are kept as the integer of [Z] they hold, and their
      sum [a + b] is [JS.add], the exact sum rounded to the nearest float; a
      quotient such as [amountCents / divisor] is [JS.divide], the exact
      quotient rounded to the nearest float and kept as the rational of [Q] it
      is.  The amounts read from the server are taken to be integers that
      are floats.  Years, offsets and page counters are integers of [Z] (a
      run would need about 9e13 requests to leave the range in which floats
      are exact).
    - A property that may be [undefined] is an [option].
    - A [Map] whose iteration order is observed ([creatorData]) is an
      association list in insertion order; a [Map] that is only read with
      [get] and written with [set] is a [gmap].
    - [fetch], [console], [setTimeout] and the progress callback are effects:
      the fetch loop returns the list of events it performed next to its
      outcome, and the network is a function consulted once per request. *)

From Stdlib Require Import ZArith QArith Qabs Qround List Permutation Sorted Lia Lqa.
From stdpp Require Import base gmap strings list pretty.

Local Open Scope string_scope.
Local Open Scope list_scope.
Local Open Scope Z_scope.

(** ** JavaScript primitives used by the exporter *)

Module JS.

(** [x || 0] on a numeric property that may be absent: [undefined], [null]
    and [0] all give [0]. *)
Definition or_zero (x : option Z) : Z := default 0 x.

(** [s || ''] on a string property that may be absent. *)
Definition or_empty (s : option string) : string := default EmptyString s.

(** [n.toString()] for an integer [n] below 10^21 in magnitude, which is
    written with its decimal digits (from 10^21 on the code writes an
    exponent form). *)
Definition Number_toString (n : Z) : string := pretty n.

(** [Math.ceil(a / b)] for integers [a] and [b > 0]. *)
Definition Math_ceil_div (a b : Z) : Z := - ((- a) / b).

(** [Math.pow(10, n)]. *)
Definition Math_pow10 (n : nat) : Z := 10 ^ Z.of_nat n.

(** Left padding with zeros up to [w] characters. *)
Definition pad_zeros (w : nat) (s : string) : string :=
  String.concat EmptyString (replicate (w - String.length s) "0") +:+ s.

(** *** Arithmetic on floats *)

(** The float nearest to an integer, ties going to the even significand: the
    integers up to 2^53 in magnitude are floats, beyond them a float is a
    53-bit integer times a power of two.  (Beyond the largest float, about
    1.8e308, the code has [Infinity]; the model does not go there.) *)
Definition round53 (z : Z) : Z :=
  let a := Z.abs z in
  if a <=? 2 ^ 53 then z
  else
    let e := Z.log2 a - 52 in
    let q := a / 2 ^ e in
    let r := a mod 2 ^ e in
    let half := 2 ^ (e - 1) in
    let q' := if r <? half then q
              else if half <? r then q + 1
              else if Z.even q then q else q + 1 in
    Z.sgn z * (q' * 2 ^ e).

(** [a + b] on numbers that hold integers. *)
Definition add (a b : Z) : Z := round53 (a + b).

(** An integer of magnitude at most 2^53 is a float: a sum that stays in
    this range is the sum of the integers. *)
Definition safe (z : Z) : Prop := Z.abs z <= 2 ^ 53.

Definition Qpow2 (e : Z) : Q :=
  if 0 <=? e then inject_Z (2 ^ e) else (1 # Z.to_pos (2 ^ (- e)))%Q.

(** The [k] with [2^k <= a < 2^(k+1)], for [a > 0]. *)
Definition floor_log2 (a : Q) : Z :=
  let k := Z.log2 (Qnum a) - Z.log2 (Zpos (Qden a)) in
  if Qle_bool (Qpow2 k) a then k else k - 1.

(** The integer nearest to [q >= 0], ties going to the even one. *)
Definition round_half_even (q : Q) : Z :=
  let f := Qfloor q in
  match (q - inject_Z f ?= 1 # 2)%Q with
  | Lt => f
  | Gt => f + 1
  | Eq => if Z.even f then f else f + 1
  end.

(** The float nearest to a rational, ties going to the even significand
    (normal floats: neither subnormal nor beyond the largest). *)
Definition round_double (q : Q) : Q :=
  if Qeq_bool q 0 then 0%Q
  else
    let a := Qabs q in
    let e := floor_log2 a - 52 in
    let m := round_half_even (a / Qpow2 e)%Q in
    ((if Qle_bool 0 q then 1 else - (1)) * (inject_Z m * Qpow2 e))%Q.

(** [a / b] on numbers that hold integers, [b] not 0. *)
Definition divide (a b : Z) : Q := round_double (inject_Z a / inject_Z b)%Q.

(** *** Number.prototype.toFixed *)

(** The text of a float [x >= 1e21], given as the integer it is: the
    shortest digit string [s] of [k] digits such that [s * 10^(n-k)] rounds
    to [x], the closest one if there are several, written with an exponent.
    A candidate is a pair of [s] and [n]. *)
Definition digit_candidates (x n k : Z) : list (Z * Z) :=
  let s := x / 10 ^ (n - k) in
  [(s, n); if s + 1 =? 10 ^ k then (10 ^ (k - 1), n + 1) else (s + 1, n)].

Definition denoted (k : Z) (c : Z * Z) : Z := fst c * 10 ^ (snd c - k).

Definition closest_digits (x k : Z) (cs : list (Z * Z)) : option (Z * Z) :=
  match List.filter (fun c => round53 (denoted k c) =? x) cs with
  | [] => None
  | [c] => Some c
  | c1 :: c2 :: _ =>
      let d1 := Z.abs (denoted k c1 - x) in
      let d2 := Z.abs (denoted k c2 - x) in
      if d1 <? d2 then Some c1
      else if d2 <? d1 then Some c2
      else if Z.even (fst c1) then Some c1 else Some c2
  end.

Fixpoint shortest_digits (x n : Z) (ks : list Z) : Z * Z * Z :=
  match ks with
  | [] => (x, n, n)
  | k :: ks' =>
      match closest_digits x k (digit_candidates x n k) with
      | Some c => (fst c, snd c, k)
      | None => shortest_digits x n ks'
      end
  end.

Definition exponent_text (x : Z) : string :=
  let n := Z.of_nat (String.length (pretty x)) in
  let '(s, n', k) :=
    shortest_digits x n [1; 2; 3; 4; 5; 6; 7; 8; 9; 10; 11; 12; 13; 14; 15; 16; 17] in
  match pretty s with
  | String d rest =>
      String d (if k =? 1 then EmptyString else "." +:+ rest) +:+
      "e+" +:+ pretty (n' - 1)
  | EmptyString => EmptyString
  end.

(** [x.toFixed(f)] for a float [x], given as the rational it is: the sign is
    split off; a magnitude of 1e21 or more is written as [String(x)] writes
    it; otherwise the integer [n] closest to [|x| * 10^f] is taken (the
    larger one on a tie) and printed with [f] digits after the point. *)
Definition Number_toFixed (x : Q) (f : nat) : string :=
  let s := if Qle_bool 0 x then EmptyString else "-" in
  let ax := Qabs x in
  let m :=
    if Qle_bool (inject_Z (10 ^ 21)) ax then exponent_text (Qfloor ax)
    else
      let n := Qfloor (ax * inject_Z (Math_pow10 f) + (1 # 2))%Q in
      match f with
      | O => pretty n
      | S _ => pretty (n / Math_pow10 f) +:+ "." +:+
               pad_zeros f (pretty (n mod Math_pow10 f))
      end in
  s +:+ m.

(** [arr.join(sep)] on an array of strings. *)
Definition Array_join (sep : string) (l : list string) : string :=
  String.concat sep l.

(** [arr.sort(cmp)].  ECMAScript requires the sort to be stable, so for a
    comparator that is a consistent ordering the result is determined: the
    elements in comparator order, equal ones in their original order.
    Insertion from the right computes that result. *)
Section Sort.
Context {A : Type} (cmp : A -> A -> Z).

Fixpoint sort_insert (x : A) (l : list A) : list A :=
  match l with
  | [] => [x]
  | y :: l' => if cmp x y <=? 0 then x :: l else y :: sort_insert x l'
  end.

Definition Array_sort (l : list A) : list A := foldr sort_insert [] l.
End Sort.

End JS.

(** ** The Intl currency formatter, as the exporter uses it *)

Record part := { part_type : string; part_value : string }.

(** The object returned by [new Intl.NumberFormat('en-US', {style: 'currency',
    currency})]: the two methods the exporter calls. *)
Record NumberFormat := {
  formatToParts : Q -> list part;
  format : Q -> string
}.

(** The constructor: [None] when it throws for the given currency code. *)
Definition Intl := string -> option NumberFormat.

(** ** The exporter object *)

Record PatreonDataExporter := {
  baseUrl : string;
  pageSize : Z;
  delay : Z
}.

(** [constructor()]. *)
Definition constructor : PatreonDataExporter :=
  {| baseUrl := "https://www.patreon.com/api/bills";
     pageSize := 100;
     delay := 200 |}.

(** ** formatCurrency *)

Section FormatCurrency.
Variable intl : Intl.

(** The minor-unit divisor read off [formatter.formatToParts(1)]. *)
Definition divisor_of (formatter : NumberFormat) : Z :=
  match List.find (fun p => bool_decide (part_type p = "fraction"))
                  (formatToParts formatter 1%Q) with
  | Some fractionPart => JS.Math_pow10 (String.length (part_value fractionPart))
  | None => 1
  end.

(** [formatCurrency(amountCents, currency)].  The [try] block can only fail
    in the constructor; the [catch] block then builds the fallback text
    (its [console.warn] has no effect on the result). *)
Definition formatCurrency (amountCents : Z) (currency : string) : string :=
  match intl currency with
  | Some formatter =>
      let divisor := divisor_of formatter in
      let amount := JS.divide amountCents divisor in
      format formatter amount
  | None =>
      currency +:+ " " +:+ JS.Number_toFixed (JS.divide amountCents 100) 2
  end.
End FormatCurrency.

(** A minor-unit amount divided by 100 and written with two decimals. *)
Definition two_decimals (a : Z) : string :=
  (if 0 <=? a then EmptyString else "-") +:+
  pretty (Z.abs a / 100) +:+ "." +:+ JS.pad_zeros 2 (pretty (Z.abs a mod 100)).

(** ** The JSON:API documents returned by the bills endpoint *)

(** The attributes the exporter reads: the first three on a bill, the last
    two on a campaign. *)
Record attributes := {
  amount_cents : option Z;
  vat_charge_amount_cents : option Z;
  attr_currency : string;
  attr_name : string;
  attr_url : option string
}.

(** A resource object of [data] or [included].  [campaign_ref] is
    [relationships?.campaign?.data?.id]: [None] when a link of the chain is
    missing. *)
Record item := {
  item_type : string;
  item_id : string;
  item_attributes : attributes;
  campaign_ref : option string
}.

Record meta := {
  meta_count : option Z;
  meta_years : option (list Z)
}.

Record document := {
  doc_data : list item;
  doc_included : option (list item);
  doc_meta : option meta
}.

(** The value [fetchYearData] resolves to. *)
Record year_data := {
  bills : list item;
  campaigns : gmap string item
}.

(** ** Insertion-ordered [Map] with string keys *)

Section OrderedMap.
Context {V : Type}.

Fixpoint Map_get (k : string) (m : list (string * V)) : option V :=
  match m with
  | [] => None
  | (k', v) :: m' => if bool_decide (k' = k) then Some v else Map_get k m'
  end.

Definition Map_has (k : string) (m : list (string * V)) : bool :=
  match Map_get k m with Some _ => true | None => false end.

(** [m.set(k, v)]: an existing key keeps its position, a new key goes last. *)
Fixpoint Map_set (k : string) (v : V) (m : list (string * V)) : list (string * V) :=
  match m with
  | [] => [(k, v)]
  | (k', v') :: m' =>
      if bool_decide (k' = k) then (k, v) :: m' else (k', v') :: Map_set k v m'
  end.

(** [Array.from(m.values())]. *)
Definition Map_values (m : list (string * V)) : list V := map snd m.
End OrderedMap.

(** ** processBillsData *)

(** The object stored in [creatorData] for one creator name. *)
Record creator := {
  cr_name : string;
  yearlySpends : gmap string Z;
  cr_currency : string;
  cr_url : option string
}.

(** [creator.yearlySpends.set(year, v)]: the creator object is reached through
    the reference held by [creatorData], so the mutation is visible there. *)
Definition set_yearlySpend (year : string) (v : Z) (c : creator) : creator :=
  {| cr_name := cr_name c;
     yearlySpends := <[year := v]> (yearlySpends c);
     cr_currency := cr_currency c;
     cr_url := cr_url c |}.

(** The two guards at the head of the inner loop body: the campaign id must be
    truthy (present and not the empty string) and [campaigns.get] must find
    it. *)
Definition resolve (campaigns : gmap string item) (bill : item) : option item :=
  match campaign_ref bill with
  | None => None
  | Some campaignId =>
      if bool_decide (campaignId = EmptyString) then None else campaigns !! campaignId
  end.

(** [(amount_cents || 0) + (vat_charge_amount_cents || 0)]. *)
Definition amountCents_of (bill : item) : Z :=
  JS.add (JS.or_zero (amount_cents (item_attributes bill)))
         (JS.or_zero (vat_charge_amount_cents (item_attributes bill))).

(** The rest of the loop body, once the campaign of the bill is known. *)
Definition accumulate (year : string) (campaign bill : item)
    (creatorData : list (string * creator)) : list (string * creator) :=
  let creatorName := attr_name (item_attributes campaign) in
  let currency := attr_currency (item_attributes bill) in
  let amountCents := amountCents_of bill in
  let creatorData :=
    if Map_has creatorName creatorData then creatorData
    else Map_set creatorName
           {| cr_name := creatorName;
              yearlySpends := ∅;
              cr_currency := currency;
              cr_url := attr_url (item_attributes campaign) |}
           creatorData in
  match Map_get creatorName creatorData with
  | Some creator =>
      let currentAmount := JS.or_zero (yearlySpends creator !! year) in
      Map_set creatorName
        (set_yearlySpend year (JS.add currentAmount amountCents) creator) creatorData
  | None => creatorData
  end.

(** One pass of the inner loop body; [continue] leaves [creatorData] as it is. *)
Definition process_bill (year : string) (campaigns : gmap string item)
    (creatorData : list (string * creator)) (bill : item) : list (string * creator) :=
  match resolve campaigns bill with
  | None => creatorData
  | Some campaign => accumulate year campaign bill creatorData
  end.

(** [processBillsData(billsByYear, campaignsByYear)].  The first argument is
    given as [Object.entries(billsByYear)], the list the outer loop walks; the
    second argument is never read by the function. *)
Definition processBillsData (billsByYear : list (string * year_data))
    : list (string * creator) :=
  fold_left
    (fun creatorData '(year, yd) =>
       fold_left (process_bill year (campaigns yd)) (bills yd) creatorData)
    billsByYear [].

(** *** Quantities the statements about the aggregate speak of *)

Definition sumZ (l : list Z) : Z := foldr Z.add 0 l.

(** The sum of one creator's yearly totals. *)
Definition yearly_sum (m : gmap string Z) : Z :=
  map_fold (fun _ v acc => v + acc) 0 m.

(** The sum of all per-creator per-year totals of an aggregate. *)
Definition grand_total (creatorData : list (string * creator)) : Z :=
  sumZ (map (fun e => yearly_sum (yearlySpends (snd e))) creatorData).

(** The total stored for creator [n] and year [y], if any. *)
Definition total_of (creatorData : list (string * creator)) (n y : string) : option Z :=
  match Map_get n creatorData with
  | Some c => yearlySpends c !! y
  | None => None
  end.

(** The bills that pass the two guards of the loop body, that is the bills
    the code goes on to aggregate, with their year key and campaign, in the
    order in which the two loops visit them. *)
Definition included_of (year : string) (yd : year_data) : list (string * item * item) :=
  omap (fun bill =>
          match resolve (campaigns yd) bill with
          | Some campaign => Some (year, campaign, bill)
          | None => None
          end) (bills yd).

Definition included (billsByYear : list (string * year_data))
    : list (string * item * item) :=
  concat (map (fun e => included_of (fst e) (snd e)) billsByYear).

(** The combined amount of a bill as an integer: the base amount plus the
    tax amount, an absent one counting as 0. *)
Definition combined_amount (bill : item) : Z :=
  JS.or_zero (amount_cents (item_attributes bill)) +
  JS.or_zero (vat_charge_amount_cents (item_attributes bill)).

Definition included_amount (billsByYear : list (string * year_data)) : Z :=
  sumZ (map (fun t => combined_amount (snd t)) (included billsByYear)).

(** The size of the two amounts of a bill, whatever their signs. *)
Definition magnitude (bill : item) : Z :=
  Z.abs (JS.or_zero (amount_cents (item_attributes bill))) +
  Z.abs (JS.or_zero (vat_charge_amount_cents (item_attributes bill))).

Definition all_bills (billsByYear : list (string * year_data)) : list item :=
  concat (map (fun e => bills (snd e)) billsByYear).

Definition total_magnitude (billsByYear : list (string * year_data)) : Z :=
  sumZ (map magnitude (all_bills billsByYear)).

(** The amounts of all bills together stay within 2^53, so that every sum
    the aggregator forms is the sum of the integers. *)
Definition in_safe_range (billsByYear : list (string * year_data)) : Prop :=
  total_magnitude billsByYear <= 2 ^ 53.

(** A bill is resolvable when it carries a campaign reference and the
    reference is a key of the campaign mapping. *)
Definition resolvable (campaigns : gmap string item) (bill : item) : bool :=
  match campaign_ref bill with
  | Some campaignId => bool_decide (is_Some (campaigns !! campaignId))
  | None => false
  end.

(** The sum of the combined amounts of the resolvable bills, each year with
    its own campaign mapping. *)
Definition resolvable_amount (billsByYear : list (string * year_data)) : Z :=
  sumZ (map (fun e => sumZ (map combined_amount
                              (List.filter (resolvable (campaigns (snd e)))
                                           (bills (snd e)))))
            billsByYear).

(** No bill refers to the campaign whose id is the empty string. *)
Definition no_empty_reference (billsByYear : list (string * year_data)) : Prop :=
  Forall (fun bill => campaign_ref bill <> Some EmptyString) (all_bills billsByYear).

(** The sum of the values [f v] of all stored totals [v]. *)
Definition stored_sum (f : Z -> Z) (creatorData : list (string * creator)) : Z :=
  sumZ (map (fun e => yearly_sum (f <$> yearlySpends (snd e))) creatorData).

(** The sum of the magnitudes of all stored totals. *)
Definition grand_magnitude (creatorData : list (string * creator)) : Z :=
  stored_sum Z.abs creatorData.

(** A bill whose campaign reference is missing or is not a key of the year's
    campaign mapping. *)
Definition unresolved (campaigns : gmap string item) (bill : item) : Prop :=
  match campaign_ref bill with
  | None => True
  | Some campaignId => campaigns !! campaignId = None
  end.

(** The loop body applied to an included bill. *)
Definition step (creatorData : list (string * creator)) (t : string * item * item)
    : list (string * creator) :=
  accumulate (fst (fst t)) (snd (fst t)) (snd t) creatorData.

(** The creator name, year key and amount of an included bill. *)
Definition name_of (t : string * item * item) : string :=
  attr_name (item_attributes (snd (fst t))).
Definition year_of (t : string * item * item) : string := fst (fst t).
Definition amount_of (t : string * item * item) : Z := amountCents_of (snd t).
Definition exact_of (t : string * item * item) : Z := combined_amount (snd t).
Definition magnitude_of (t : string * item * item) : Z := magnitude (snd t).

Definition concerns (n y : string) (t : string * item * item) : bool :=
  bool_decide (name_of t = n ∧ year_of t = y).

(** ** fetchYearData *)

(** The request built by [buildApiUrl(year, offset)].  Of the nine query
    parameters only [filter[due_date_year]], [page[offset]] and [page[count]]
    vary; the other six (timezone, include, the two field lists, the
    default-includes flag and the API version) are the same in every call. *)
Record url := {
  url_base : string;
  url_year : Z;
  url_offset : Z;
  url_count : Z
}.

Definition buildApiUrl (this : PatreonDataExporter) (year offset : Z) : url :=
  {| url_base := baseUrl this;
     url_year := year;
     url_offset := offset;
     url_count := pageSize this |}.

(** A thrown JavaScript error value. *)
Record error := { err_name : string; err_message : string }.

(** What [await fetch(url)] gives: the promise rejects (transport failure), or
    resolves to a response whose [ok], [status] and [statusText] are read and
    whose [json()] either rejects or yields a document. *)
Inductive response :=
| Rejected (e : error)
| Resolved (ok : bool) (status : Z) (statusText : string) (json : error + document).

(** The network seen by one run: the answer to the [k]-th request. *)
Definition network := nat -> url -> response.

Inductive event :=
| EvFetch (u : url)
| EvProgress (year currentPage totalPages billsCount : Z)
| EvDelay (ms : Z)
| EvConsoleError (year offset : Z) (e : error).

(** The local variables of [fetchYearData]. *)
Record loop_state := {
  allBills : list item;
  allCampaigns : gmap string item;
  offset : Z;
  totalPages : Z;
  currentPage : Z
}.

Definition initial_state : loop_state :=
  {| allBills := []; allCampaigns := ∅; offset := 0; totalPages := 0; currentPage := 0 |}.

Inductive control :=
| Continue (s : loop_state)
| Break (s : loop_state)
| Throw (e : error).

Definition is_bill (i : item) : bool := bool_decide (item_type i = "bill").
Definition is_campaign (i : item) : bool := bool_decide (item_type i = "campaign").

(** [new Error(`HTTP ${response.status}: ${response.statusText}`)]. *)
Definition http_error (status : Z) (statusText : string) : error :=
  {| err_name := "Error";
     err_message := "HTTP " +:+ JS.Number_toString status +:+ ": " +:+ statusText |}.

(** [data.meta && data.meta.count]: the count when it is present and not 0. *)
Definition truthy_count (data : document) : option Z :=
  match doc_meta data with
  | Some m =>
      match meta_count m with
      | Some c => if c =? 0 then None else Some c
      | None => None
      end
  | None => None
  end.

(** One pass through the body of [while (true)].  Every exception raised in
    the [try] block reaches the [catch], which logs year and offset and
    rethrows the same value. *)
Definition loop_body (this : PatreonDataExporter) (year : Z)
    (fetch : url -> response) (s : loop_state) : list event * control :=
  let u := buildApiUrl this year (offset s) in
  let rethrow e := ([EvFetch u; EvConsoleError year (offset s) e], Throw e) in
  match fetch u with
  | Rejected e => rethrow e
  | Resolved ok status statusText json =>
      if negb ok then rethrow (http_error status statusText)
      else
        match json with
        | inl e => rethrow e
        | inr data =>
            let bills := List.filter is_bill (doc_data data) in
            let allBills' := allBills s ++ bills in
            let allCampaigns' :=
              match doc_included data with
              | Some inc =>
                  fold_left (fun m campaign => <[item_id campaign := campaign]> m)
                            (List.filter is_campaign inc) (allCampaigns s)
              | None => allCampaigns s
              end in
            let totalPages' :=
              match truthy_count data with
              | Some c =>
                  if totalPages s =? 0 then JS.Math_ceil_div c (pageSize this)
                  else totalPages s
              | None => totalPages s
              end in
            let currentPage' := currentPage s + 1 in
            let billsCount := Z.of_nat (length bills) in
            let progress := EvProgress year currentPage' totalPages' billsCount in
            if billsCount <? pageSize this then
              ([EvFetch u; progress],
               Break {| allBills := allBills'; allCampaigns := allCampaigns';
                        offset := offset s; totalPages := totalPages';
                        currentPage := currentPage' |})
            else
              ([EvFetch u; progress; EvDelay (delay this)],
               Continue {| allBills := allBills'; allCampaigns := allCampaigns';
                           offset := offset s + pageSize this;
                           totalPages := totalPages';
                           currentPage := currentPage' |})
        end
  end.

(** How a run of [fetchYearData] ends: it resolves, it rejects, or the loop is
    still running when the iteration budget is used up. *)
Inductive outcome :=
| Returned (r : year_data)
| Thrown (e : error)
| Running.

(** The loop, with [k] requests already made. *)
Fixpoint fetch_loop (this : PatreonDataExporter) (net : network) (year : Z)
    (fuel k : nat) (s : loop_state) : list event * outcome :=
  match fuel with
  | O => ([], Running)
  | S fuel' =>
      match loop_body this year (net k) s with
      | (evs, Break s') =>
          (evs, Returned {| bills := allBills s'; campaigns := allCampaigns s' |})
      | (evs, Throw e) => (evs, Thrown e)
      | (evs, Continue s') =>
          let '(evs', o) := fetch_loop this net year fuel' (S k) s' in
          (evs ++ evs', o)
      end
  end.

(** [fetchYearData(year, onProgress)]; the calls of [onProgress] are the
    [EvProgress] events. *)
Definition fetchYearData (this : PatreonDataExporter) (net : network)
    (fuel : nat) (year : Z) : list event * outcome :=
  fetch_loop this net year fuel 0 initial_state.

Definition is_fetch (e : event) : bool :=
  match e with EvFetch _ => true | _ => false end.

(** The requests a run issued, in order. *)
Definition requests (evs : list event) : list url :=
  omap (fun e => match e with EvFetch u => Some u | _ => None end) evs.

(** A successful answer carrying document [d]. *)
Definition ok_response (d : document) : response :=
  Resolved true 200 "OK" (inr d).

(** The number of bill records of a page. *)
Definition bill_count (d : document) : Z :=
  Z.of_nat (length (List.filter is_bill (doc_data d))).


(** The requests for [n] successive pages starting at offset [o]. *)
Definition offsets_from (this : PatreonDataExporter) (year o : Z) (n : nat) : list url :=
  map (fun i : nat => buildApiUrl this year (o + Z.of_nat i * pageSize this)) (seq 0 n).


(** ** generateCSV *)

(** The spread [{...creator, totalAmountCents}]. *)
Record creator_total := {
  ct_creator : creator;
  totalAmountCents : Z
}.

(** A comparator [(a, b) => key(b) - key(a)]. *)
Definition descending {A : Type} (key : A -> Z) (a b : A) : Z := key b - key a.

Definition newline : string := String (Ascii.ascii_of_nat 10) EmptyString.

Section GenerateCSV.
Variable intl : Intl.

Definition sortedYears (years : list Z) : list Z :=
  JS.Array_sort (descending (fun y => y)) years.

Definition headers (years : list Z) : list string :=
  ["Creator"; "Currency"; "URL"; "Total Spend"] ++
  map (fun year => "Total Spend " +:+ JS.Number_toString year) (sortedYears years).

Definition spend_in (c : creator) (year : Z) : Z :=
  JS.or_zero (yearlySpends c !! JS.Number_toString year).

Definition creatorsArray (creatorData : list (string * creator)) (years : list Z)
    : list creator_total :=
  map (fun c =>
         {| ct_creator := c;
            totalAmountCents :=
              fold_left (fun total year => JS.add total (spend_in c year)) years 0 |})
      (Map_values creatorData).

(** The yearly amounts that make up the total of each creator stay, taken
    together, within 2^53, so that the total is the sum of the integers. *)
Definition totals_safe (creatorData : list (string * creator)) (years : list Z) : Prop :=
  Forall (fun c => sumZ (map (fun year => Z.abs (spend_in c year)) years) <= 2 ^ 53)
         (Map_values creatorData).

Definition sortedCreators (creatorData : list (string * creator)) (years : list Z)
    : list creator_total :=
  JS.Array_sort (descending totalAmountCents) (creatorsArray creatorData years).

Definition year_cell (c : creator) (year : Z) : string :=
  formatCurrency intl (spend_in c year) (cr_currency c).

Definition csv_row (years : list Z) (ct : creator_total) : list string :=
  let c := ct_creator ct in
  [cr_name c; cr_currency c; JS.or_empty (cr_url c);
   formatCurrency intl (totalAmountCents ct) (cr_currency c)] ++
  map (year_cell c) (sortedYears years).

(** The local array [rows]: the header row, then one row per creator. *)
Definition csv_rows (creatorData : list (string * creator)) (years : list Z)
    : list (list string) :=
  headers years :: map (csv_row years) (sortedCreators creatorData years).

Definition generateCSV (creatorData : list (string * creator)) (years : list Z)
    : string :=
  JS.Array_join newline (map (JS.Array_join ",") (csv_rows creatorData years)).
End GenerateCSV.

(** ** buildApiUrl: the text of the URL *)

(** The characters [URLSearchParams.toString()] leaves as they are: letters,
    digits and [*], [-], [.], [_]. *)
Definition is_urlencode_safe (c : Ascii.ascii) : bool :=
  let n := Ascii.N_of_ascii c in
  ((48 <=? n) && (n <=? 57) || (65 <=? n) && (n <=? 90) || (97 <=? n) && (n <=? 122) ||
   (n =? 42) || (n =? 45) || (n =? 46) || (n =? 95))%N.

Definition hex_digit (n : N) : Ascii.ascii :=
  Ascii.ascii_of_N (if (n <? 10)%N then 48 + n else 55 + n)%N.

(** The serialization of one byte: itself, [+] for a space, or [%XX]. *)
Definition urlencode_byte (c : Ascii.ascii) : string :=
  let n := Ascii.N_of_ascii c in
  if is_urlencode_safe c then String c EmptyString
  else if (n =? 32)%N then "+"
  else String (Ascii.ascii_of_N 37) (String (hex_digit (n / 16)) (String (hex_digit (n mod 16)) EmptyString)).

Fixpoint urlencode (s : string) : string :=
  match s with
  | EmptyString => EmptyString
  | String c s' => urlencode_byte c +:+ urlencode s'
  end.

(** [params.toString()] for a [URLSearchParams] holding the given pairs. *)
Definition URLSearchParams_toString (params : list (string * string)) : string :=
  String.concat "&" (map (fun kv => urlencode (fst kv) +:+ "=" +:+ urlencode (snd kv)) params).

(** The pairs handed to [new URLSearchParams]; [timeZone] is
    [Intl.DateTimeFormat().resolvedOptions().timeZone]. *)
Definition buildApiUrl_params (timeZone : string) (this : PatreonDataExporter)
    (year offset : Z) : list (string * string) :=
  [("timezone", timeZone);
   ("include", "campaign");
   ("fields[campaign]", "name,url");
   ("fields[bill]", "amount_cents,vat_charge_amount_cents,currency");
   ("json-api-use-default-includes", "false");
   ("filter[due_date_year]", JS.Number_toString year);
   ("page[offset]", JS.Number_toString offset);
   ("page[count]", JS.Number_toString (pageSize this));
   ("json-api-version", "1.0")].

(** The string [buildApiUrl(year, offset)] returns. *)
Definition buildApiUrl_text (timeZone : string) (this : PatreonDataExporter)
    (year offset : Z) : string :=
  baseUrl this +:+ "?" +:+
  URLSearchParams_toString (buildApiUrl_params timeZone this year offset).

(** ** The host page and what the exporter does to it *)

(** What the exporter reads from its environment. *)
Record host := {
  host_intl : Intl;
  host_timeZone : string;
  (** [parseInt]; [None] stands for [NaN] *)
  host_parseInt : string -> option Z;
  (** [new Date().getFullYear()] *)
  host_fullYear : Z;
  (** [new Date().toISOString().split('T')[0]] *)
  host_isoDate : string
}.

(** The elements the exporter looks up: whether [patreon-export-btn] and
    [patreon-year-select] exist, the value selected, and whether anchors have
    a [download] property. *)
Record webpage := {
  has_button : bool;
  has_select : bool;
  select_value : string;
  link_download : bool
}.

Inductive dom_effect :=
| SetButtonText (text : string)
| SetButtonDisabled (b : bool)
| SetSelectDisabled (b : bool).

(** The effects of an export run.  [Net] wraps the effects of the fetch loop
    and the request of [getAvailableYears]; a wrapped [EvProgress] is one call
    of the progress callback of [exportData], which rewrites the button text
    (its percentage is computed in floating point and is not modelled). *)
Inductive export_event :=
| Net (e : event)
| Dom (d : dom_effect)
| LogYearsError (e : error)
| LogYearsWarning (e : error)
| LogExportError (e : error)
| SaveFile (filename content : string)
| Timer (ms : Z) (callback : list dom_effect).

(** [updateProgress(message, percentage = null)]. *)
Definition updateProgress (d : webpage) (message : string) (percentage : option Z)
    : list dom_effect :=
  if has_button d then
    [SetButtonText
       match percentage with
       | Some p => message +:+ " (" +:+ JS.Number_toString p +:+ "%)"
       | None => message
       end]
  else [].

(** [downloadCSV(csvContent)]. *)
Definition downloadCSV (h : host) (d : webpage) (csvContent : string) : list export_event :=
  if link_download d then
    [SaveFile ("patreon_membership_data_" +:+ host_isoDate h +:+ ".csv") csvContent]
  else [].

(** ** getAvailableYears *)

Inductive listing :=
| Listed (years : list Z)
| ListingFailed (e : error).

(** The [TypeError] of reading [years] off a missing [meta]; the message is
    the engine's. *)
Definition meta_undefined_error : error :=
  {| err_name := "TypeError";
     err_message := "Cannot read properties of undefined (reading 'years')" |}.

Definition getAvailableYears (this : PatreonDataExporter) (h : host)
    (fetch : url -> response) : list export_event * listing :=
  let u := buildApiUrl this (host_fullYear h) 0 in
  let rethrow e := ([Net (EvFetch u); LogYearsError e], ListingFailed e) in
  match fetch u with
  | Rejected e => rethrow e
  | Resolved ok status statusText json =>
      if negb ok then rethrow (http_error status statusText)
      else
        match json with
        | inl e => rethrow e
        | inr data =>
            match doc_meta data with
            | Some m => ([Net (EvFetch u)], Listed (default [] (meta_years m)))
            | None => rethrow meta_undefined_error
            end
        end
  end.

(** ** An object keyed by years *)

(** [billsByYear] is a plain object whose property keys are the texts of the
    years.  It is kept as the list of its properties in creation order, under
    the year.  Own properties are enumerated with the array indices first, in
    ascending order, then the other keys in creation order. *)
Section YearObject.
Context {V : Type}.

Definition is_array_index (k : Z) : bool := (0 <=? k) && (k <? 2 ^ 32 - 1).

(** [o[k] = v]. *)
Fixpoint Object_set (k : Z) (v : V) (o : list (Z * V)) : list (Z * V) :=
  match o with
  | [] => [(k, v)]
  | (k', v') :: o' =>
      if k' =? k then (k, v) :: o' else (k', v') :: Object_set k v o'
  end.

(** [o[k]]. *)
Fixpoint Object_get (k : Z) (o : list (Z * V)) : option V :=
  match o with
  | [] => None
  | (k', v) :: o' => if k' =? k then Some v else Object_get k o'
  end.

Definition own_properties (o : list (Z * V)) : list (Z * V) :=
  JS.Array_sort (descending (fun e : Z * V => - fst e))
                (List.filter (fun e => is_array_index (fst e)) o) ++
  List.filter (fun e => negb (is_array_index (fst e))) o.

(** [Object.entries(o)]. *)
Definition Object_entries (o : list (Z * V)) : list (string * V) :=
  map (fun e => (JS.Number_toString (fst e), snd e)) (own_properties o).
End YearObject.

(** ** exportData *)

Inductive export_outcome :=
| NoControls
| Exported (csvContent : string)
| ExportFailed (e : error)
| ExportRunning
| YearNaN.

(** [new Error('No years available')]. *)
Definition no_years_error : error :=
  {| err_name := "Error"; err_message := "No years available" |}.

(** [selectedValue === 'all' ? allYears : [parseInt(selectedValue)]]; [None]
    when [parseInt] gives [NaN]. *)
Definition yearsToProcess (h : host) (allYears : list Z) (selectedValue : string)
    : option (list Z) :=
  if bool_decide (selectedValue = "all") then Some allYears
  else match host_parseInt h selectedValue with
       | Some year => Some [year]
       | None => None
       end.

Inductive years_result :=
| Fetched (billsByYear : list (Z * year_data))
| FetchFailed (e : error)
| FetchRunning.

(** The loop [for (const year of yearsToProcess)], with [k] requests made so
    far and the object [billsByYear] as filled so far. *)
Fixpoint fetch_years (this : PatreonDataExporter) (net : network) (fuel : nat)
    (years : list Z) (k : nat) (billsByYear : list (Z * year_data))
    : list export_event * years_result :=
  match years with
  | [] => ([], Fetched billsByYear)
  | year :: rest =>
      match fetch_loop this net year fuel k initial_state with
      | (evs, Returned r) =>
          let '(evs', res) :=
            fetch_years this net fuel rest (k + length (requests evs))
                        (Object_set year r billsByYear) in
          (map Net evs ++ evs', res)
      | (evs, Thrown e) => (map Net evs, FetchFailed e)
      | (evs, Running) => (map Net evs, FetchRunning)
      end
  end.

(** [exportData()].  The promise it returns always resolves: every error is
    caught, logged and shown on the button. *)
Definition exportData (this : PatreonDataExporter) (h : host) (d : webpage)
    (net : network) (fuel : nat) : list export_event * export_outcome :=
  if negb (has_button d && has_select d) then ([], NoControls)
  else
    let failed evs e :=
      (evs ++ [LogExportError e] ++
       map Dom (updateProgress d "Export failed - check console" None) ++
       [Dom (SetButtonDisabled false); Dom (SetSelectDisabled false)],
       ExportFailed e) in
    let start :=
      [Dom (SetButtonDisabled true); Dom (SetSelectDisabled true)] ++
      map Dom (updateProgress d "Getting available years..." None) in
    match getAvailableYears this h (net 0%nat) with
    | (evs0, ListingFailed e) => failed (start ++ evs0) e
    | (evs0, Listed allYears) =>
        if (length allYears =? 0)%nat then failed (start ++ evs0) no_years_error
        else
          match yearsToProcess h allYears (select_value d) with
          | None => (start ++ evs0, YearNaN)
          | Some years =>
              let evs1 :=
                start ++ evs0 ++ map Dom (updateProgress d "Fetching data..." (Some 0)) in
              match fetch_years this net fuel years 1 [] with
              | (evs2, FetchFailed e) => failed (evs1 ++ evs2) e
              | (evs2, FetchRunning) => (evs1 ++ evs2, ExportRunning)
              | (evs2, Fetched billsByYear) =>
                  let creatorData := processBillsData (Object_entries billsByYear) in
                  let csvContent := generateCSV (host_intl h) creatorData years in
                  (evs1 ++ evs2 ++
                   map Dom (updateProgress d "Processing data..." None) ++
                   map Dom (updateProgress d "Generating CSV..." None) ++
                   map Dom (updateProgress d "Downloading..." None) ++
                   downloadCSV h d csvContent ++
                   map Dom (updateProgress d "Complete!" None) ++
                   [Timer 2000
                      (updateProgress d "Download Membership Data" None ++
                       [SetButtonDisabled false; SetSelectDisabled false])],
                   Exported csvContent)
              end
          end
    end.

(** ** createExportButton: the year selector *)

(** The options of the selector once the listing has settled, as pairs of
    value and text: [None] when the button already exists and nothing is
    built. *)
Definition createExportButton (this : PatreonDataExporter) (h : host) (d : webpage)
    (fetch : url -> response) : list export_event * option (list (string * string)) :=
  if has_button d then ([], None)
  else
    match getAvailableYears this h fetch with
    | (evs, Listed years) =>
        (evs,
         Some (("all", "All Years") ::
               map (fun year => (JS.Number_toString year, JS.Number_toString year))
                   (JS.Array_sort (descending (fun y : Z => y)) years)))
    | (evs, ListingFailed e) =>
        (evs ++ [LogYearsWarning e], Some [("all", "All Years")])
    end.

(** The requests and the files saved in the course of an export run. *)
Definition export_requests (evs : list export_event) : list url :=
  omap (fun e => match e with Net (EvFetch u) => Some u | _ => None end) evs.

Definition saved_files (evs : list export_event) : list (string * string) :=
  omap (fun e => match e with SaveFile f c => Some (f, c) | _ => None end) evs.

(** ** Further notions used in the statements *)

(** The names of a list, each once, in the order of first occurrence. *)
Definition first_seen (names : list string) : list string :=
  fold_left (fun seen n => if bool_decide (n ∈ seen) then seen else seen ++ [n])
            names [].

(** The year keys under which a creator has a total. *)
Definition year_keys (c : creator) : gset string := dom (yearlySpends c).

(** The kinds of effect of the fetch loop. *)
Inductive kind := KFetch | KProgress | KDelay | KError.

Definition kind_of (e : event) : kind :=
  match e with
  | EvFetch _ => KFetch
  | EvProgress _ _ _ _ => KProgress
  | EvDelay _ => KDelay
  | EvConsoleError _ _ _ => KError
  end.

(** How the last round of a finished run ends. *)
Definition final_kind (o : outcome) : kind :=
  match o with
  | Returned _ => KProgress
  | _ => KError
  end.

(** The delays awaited, the page numbers and the bill counts passed to the
    progress callback, each in order. *)
Definition delays (evs : list event) : list Z :=
  omap (fun e => match e with EvDelay ms => Some ms | _ => None end) evs.

Definition progress_pages (evs : list event) : list Z :=
  omap (fun e => match e with EvProgress _ p _ _ => Some p | _ => None end) evs.

Definition progress_counts (evs : list event) : list Z :=
  omap (fun e => match e with EvProgress _ _ _ n => Some n | _ => None end) evs.

(** A successful answer with at least [pageSize] bills. *)
Definition full_answer (this : PatreonDataExporter) (r : response) : Prop :=
  exists status statusText d,
    r = Resolved true status statusText (inr d) ∧ pageSize this <= bill_count d.

(** The campaigns of one page, and of a sequence of pages, filed by id. *)
Definition add_campaigns (m : gmap string item) (d : document) : gmap string item :=
  match doc_included d with
  | Some inc =>
      fold_left (fun m campaign => <[item_id campaign := campaign]> m)
                (List.filter is_campaign inc) m
  | None => m
  end.



(** ** Sample data for the examples *)

Module Sample.

(** Thousands separators of the en-US locale. *)
Fixpoint group_thousands (fuel : nat) (n : Z) : string :=
  match fuel with
  | O => pretty n
  | S fuel' =>
      if n <? 1000 then pretty n
      else group_thousands fuel' (n / 1000) +:+ "," +:+
           JS.pad_zeros 3 (pretty (n mod 1000))
  end.

(** The no-break space U+00A0, in UTF-8. *)
Definition nbsp : string :=
  String (Ascii.ascii_of_nat 194) (String (Ascii.ascii_of_nat 160) EmptyString).

(** An en-US currency formatter: the sign, the symbol, the literal that
    separates symbol and number (empty after a sign such as $, a no-break
    space after a letter code), the grouped integer digits and [digits]
    fraction digits.  The number is rounded to [digits] fraction digits from
    its exact value, the half going away from zero.  (Intl.NumberFormat
    rounds the shortest decimal text of the float instead; the digits are
    the same whenever that text has at most [digits] fraction digits, as it
    has for the amounts of the examples.) *)
Definition currency_formatter (symbol literal : string) (digits : nat) : NumberFormat :=
  let text (q : Q) : list part :=
    let n := Qfloor (Qabs q * inject_Z (JS.Math_pow10 digits) + (1 # 2))%Q in
    (if Qle_bool 0 q then [] else [{| part_type := "minusSign"; part_value := "-" |}]) ++
    [{| part_type := "currency"; part_value := symbol |}] ++
    (if bool_decide (literal = EmptyString) then []
     else [{| part_type := "literal"; part_value := literal |}]) ++
    [{| part_type := "integer";
        part_value := group_thousands 8 (n / JS.Math_pow10 digits) |}] ++
    match digits with
    | O => []
    | S _ =>
        [{| part_type := "decimal"; part_value := "." |};
         {| part_type := "fraction";
            part_value := JS.pad_zeros digits (pretty (n mod JS.Math_pow10 digits)) |}]
    end in
  {| formatToParts := text;
     format := fun q => String.concat EmptyString (map part_value (text q)) |}.

Definition is_letter (c : Ascii.ascii) : bool :=
  let n := Ascii.N_of_ascii c in
  ((65 <=? n) && (n <=? 90) || (97 <=? n) && (n <=? 122))%N.

Definition upper (c : Ascii.ascii) : Ascii.ascii :=
  let n := Ascii.N_of_ascii c in
  if ((97 <=? n) && (n <=? 122))%N then Ascii.ascii_of_N (n - 32) else c.

(** A currency code is well formed when it is three letters. *)
Definition well_formed (code : string) : bool :=
  match code with
  | String a (String b (String c EmptyString)) => is_letter a && is_letter b && is_letter c
  | _ => false
  end.

Fixpoint upper_case (s : string) : string :=
  match s with
  | EmptyString => EmptyString
  | String c s' => String (upper c) (upper_case s')
  end.

(** [new Intl.NumberFormat('en-US', {style: 'currency', currency})] for the
    currencies of the examples.  The constructor throws for a code that is
    not well formed and accepts every other code; a currency without a
    symbol of its own is written as its code and a no-break space, and a code
    that names no currency has two fraction digits. *)
Definition intl : Intl := fun code =>
  if well_formed code then
    let c := upper_case code in
    if bool_decide (c = "USD") then Some (currency_formatter "$" EmptyString 2)
    else if bool_decide (c = "JPY") then Some (currency_formatter "¥" EmptyString 0)
    else if bool_decide (c = "KWD") then Some (currency_formatter c nbsp 3)
    else Some (currency_formatter c nbsp 2)
  else None.

Definition bill (id : string) (amount vat : option Z) (cur : string)
    (ref : option string) : item :=
  {| item_type := "bill"; item_id := id;
     item_attributes :=
       {| amount_cents := amount; vat_charge_amount_cents := vat;
          attr_currency := cur; attr_name := EmptyString; attr_url := None |};
     campaign_ref := ref |}.

Definition campaign (id name : string) (u : option string) : item :=
  {| item_type := "campaign"; item_id := id;
     item_attributes :=
       {| amount_cents := None; vat_charge_amount_cents := None;
          attr_currency := EmptyString; attr_name := name; attr_url := u |};
     campaign_ref := None |}.

Definition page (data : list item) (inc : list item) : document :=
  {| doc_data := data; doc_included := Some inc; doc_meta := None |}.

Definition alice := campaign "c1" "Alice" (Some "https://www.patreon.com/alice").
Definition bob := campaign "c2" "Bob" None.
Definition two_campaigns : gmap string item := <["c1" := alice]> (<["c2" := bob]> ∅).

(** A server that has the given pages for every year and fails with
    HTTP 404 past the last one. *)
Definition paged (this : PatreonDataExporter) (pages : list document) : network :=
  fun _ u =>
    match pages !! Z.to_nat (url_offset u / pageSize this) with
    | Some d => ok_response d
    | None => Resolved false 404 "Not Found" (inl {| err_name := EmptyString; err_message := EmptyString |})
    end.

Definition full_page : document :=
  page (replicate 100 (bill "b" (Some 500) None "USD" (Some "c1"))) [alice].

End Sample.

(** Bills, pages and networks of the concrete runs. *)
Module Runs.

Definition b1 := Sample.bill "b1" (Some 100) None "USD" (Some "c1").
Definition b2 := Sample.bill "b2" (Some 2000) (Some 400) "EUR" (Some "c1").
Definition b3 := Sample.bill "b3" (Some 700) None "USD" (Some "c2").
Definition orphan := Sample.bill "b4" (Some 900) None "USD" (Some "c9").
Definition unlinked := Sample.bill "b5" (Some 50) None "USD" None.

(** In 2023 the campaign named Alice has another URL. *)
Definition alice_2023 := Sample.campaign "c1" "Alice" (Some "https://www.patreon.com/alice2").
Definition campaigns_2023 : gmap string item := <["c1" := alice_2023]> ∅.

Definition two_years : list (string * year_data) :=
  [("2022", {| bills := [b3; unlinked; b1]; campaigns := Sample.two_campaigns |});
   ("2023", {| bills := [b2]; campaigns := campaigns_2023 |})].

(** A campaign filed under the empty id, and a bill that refers to it. *)
Definition nameless := Sample.campaign EmptyString "Carol" None.
Definition campaigns_nameless : gmap string item := <[EmptyString := nameless]> ∅.
Definition to_nameless := Sample.bill "b6" (Some 100) None "USD" (Some EmptyString).

(** Bills of Alice with amounts at the end of the integers that floats
    hold: 2^53, 1 and 1, and a bill of 2^53 - 1 with a tax amount of 2. *)
Definition huge := Sample.bill "b7" (Some 9007199254740992) None "USD" (Some "c1").
Definition one := Sample.bill "b8" (Some 1) None "USD" (Some "c1").
Definition another := Sample.bill "b9" (Some 1) None "USD" (Some "c1").
Definition taxed := Sample.bill "b10" (Some 9007199254740991) (Some 2) "USD" (Some "c1").

(** A creator with 2^53 in year 1 and 1 in each of the years 2 and 3. *)
Definition uneven : creator :=
  {| cr_name := "Alice";
     yearlySpends := <["1" := 9007199254740992]> (<["2" := 1]> (<["3" := 1]> ∅));
     cr_currency := "USD"; cr_url := None |}.



Definition short_page : document := Sample.page [b1; b3] [Sample.alice; Sample.bob].

Definition server_error : response :=
  Resolved false 500 "Internal Server Error" (inl {| err_name := EmptyString; err_message := EmptyString |}).

(** Every request fails. *)
Definition failing_first : network := fun _ _ => server_error.

(** The first request succeeds with a full page, the second fails. *)
Definition failing_second : network := fun k _ =>
  match k with
  | O => ok_response Sample.full_page
  | S _ => server_error
  end.

End Runs.

(** A host, a page and a server for the export runs of the examples. *)
Module Demo.

Definition digit_of (c : Ascii.ascii) : option Z :=
  let n := Ascii.N_of_ascii c in
  if ((48 <=? n) && (n <=? 57))%N then Some (Z.of_N n - 48) else None.

Fixpoint read_digits (acc : Z) (s : string) : Z :=
  match s with
  | String c s' =>
      match digit_of c with
      | Some d => read_digits (acc * 10 + d) s'
      | None => acc
      end
  | EmptyString => acc
  end.

Definition starts_with_digit (s : string) : bool :=
  match s with
  | String c _ => match digit_of c with Some _ => true | None => false end
  | EmptyString => false
  end.

(** [parseInt] on texts made of an optional minus sign and decimal digits:
    the leading digits are read, and a text without a leading digit is
    [NaN]. *)
Definition parseInt (s : string) : option Z :=
  match s with
  | String c s' =>
      if (Ascii.N_of_ascii c =? 45)%N then
        if starts_with_digit s' then Some (- read_digits 0 s') else None
      else if starts_with_digit s then Some (read_digits 0 s) else None
  | EmptyString => None
  end.

Definition browser : host :=
  {| host_intl := Sample.intl;
     host_timeZone := "Europe/Berlin";
     host_parseInt := parseInt;
     host_fullYear := 2024;
     host_isoDate := "2024-05-17" |}.

(** A page with both controls, the selector at the given value. *)
Definition ready (value : string) : webpage :=
  {| has_button := true; has_select := true; select_value := value;
     link_download := true |}.

Definition with_years (ys : list Z) (data inc : list item) : document :=
  {| doc_data := data; doc_included := Some inc;
     doc_meta := Some {| meta_count := Some (Z.of_nat (length data));
                         meta_years := Some ys |} |}.

(** One creator billed 1000 in 2022 and 2000 in 2023; nothing in 2024. *)
Definition api : network := fun _ u =>
  ok_response
    (with_years [2023; 2022]
       (if (url_offset u =? 0) && (url_year u =? 2022) then
          [Sample.bill "x" (Some 1000) None "USD" (Some "c1")]
        else if (url_offset u =? 0) && (url_year u =? 2023) then
          [Sample.bill "y" (Some 2000) None "USD" (Some "c1")]
        else [])
       [Sample.alice]).

(** The same server, failing on every request for 2022. *)
Definition api_down_2022 : network := fun k u =>
  if url_year u =? 2022 then Runs.server_error else api k u.

(** A server without billing years. *)
Definition api_no_years : network := fun _ _ => ok_response (with_years [] [] []).

(** A server that has a full page at every offset. *)
Definition api_endless : network := fun _ _ => ok_response Sample.full_page.

(** What a run returned, for runs that did return. *)
Definition returned (run : list event * outcome) : year_data :=
  match run.2 with
  | Returned r => r
  | _ => {| bills := []; campaigns := ∅ |}
  end.

Definition fetched_object (run : list export_event * years_result)
    : list (Z * year_data) :=
  match run.2 with
  | Fetched o => o
  | _ => []
  end.

End Demo.

(** * Properties *)

(** ** The stable sort *)

Section SortFacts.
Context {A : Type} (key : A -> Z).

Local Abbreviation cmp := (descending key).
Local Abbreviation ge_key := (fun a b : A => key b <= key a).

Lemma sort_insert_perm x l : Permutation (JS.sort_insert cmp x l) (x :: l).
Proof.
  induction l as [|y l IH]; simpl; [done|].
  destruct (cmp x y <=? 0); [done|].
  rewrite IH. apply perm_swap.
Qed.

Lemma Array_sort_perm l : Permutation (JS.Array_sort cmp l) l.
Proof.
  induction l as [|x l IH]; simpl; [done|].
  unfold JS.Array_sort in IH. rewrite sort_insert_perm. by constructor.
Qed.

Lemma sort_insert_sorted x l :
  StronglySorted ge_key l -> StronglySorted ge_key (JS.sort_insert cmp x l).
Proof.
  induction 1 as [|y l Hl IH Hy]; simpl.
  - repeat constructor.
  - unfold descending at 1. destruct (Z.leb_spec (key y - key x) 0) as [Hle|Hgt].
    + constructor; [by constructor|].
      constructor; [lia|].
      eapply Forall_impl; [exact Hy|]. simpl. intros; lia.
    + constructor; [exact IH|].
      rewrite (sort_insert_perm x l). constructor; [lia | exact Hy].
Qed.

Lemma Array_sort_sorted l : StronglySorted ge_key (JS.Array_sort cmp l).
Proof.
  induction l as [|x l IH]; simpl; [constructor|].
  by apply sort_insert_sorted.
Qed.


End SortFacts.

(** ** formatCurrency *)

(** *** Sums and quotients that stay in the range of the floats *)

Lemma round53_safe z : JS.safe z -> JS.round53 z = z.
Proof.
  unfold JS.safe, JS.round53. intros Hz. cbv zeta.
  by rewrite (proj2 (Z.leb_le _ _) Hz).
Qed.

Lemma add_safe a b : JS.safe (a + b) -> JS.add a b = a + b.
Proof. apply round53_safe. Qed.

Lemma Qpow2_pos e : (0 < JS.Qpow2 e)%Q.
Proof.
  unfold JS.Qpow2. destruct (Z.leb_spec 0 e).
  - unfold Qlt. simpl. assert (0 < 2 ^ e) by (apply Z.pow_pos_nonneg; lia). lia.
  - reflexivity.
Qed.

Lemma Qpow2_small e : e <= -7 -> (JS.Qpow2 e <= 1 # 128)%Q.
Proof.
  intros He. unfold JS.Qpow2. rewrite (proj2 (Z.leb_gt 0 e)) by lia.
  unfold Qle. simpl.
  assert (2 ^ 7 <= 2 ^ (- e)) by (apply Z.pow_le_mono_r; lia).
  change (2 ^ 7) with 128 in *.
  rewrite Z2Pos.id by lia. lia.
Qed.

Lemma Qpow2_large k : 46 <= k -> (inject_Z (2 ^ 46) <= JS.Qpow2 k)%Q.
Proof.
  intros Hk. unfold JS.Qpow2. rewrite (proj2 (Z.leb_le 0 k)) by lia.
  rewrite <- Zle_Qle. apply Z.pow_le_mono_r; lia.
Qed.

Lemma floor_log2_small (a : Q) : (a < inject_Z (2 ^ 46))%Q ->
  Z.log2 (Qnum a) - Z.log2 (Zpos (Qden a)) <= 46 -> JS.floor_log2 a <= 45.
Proof.
  intros Ha Hk. unfold JS.floor_log2. cbv zeta.
  destruct (Qle_bool _ a) eqn:E; [|lia].
  apply Qle_bool_iff in E.
  destruct (Z_lt_le_dec (Z.log2 (Qnum a) - Z.log2 (Z.pos (Qden a))) 46) as [|Hge]; [lia|].
  pose proof (Qpow2_large _ Hge). exfalso. lra.
Qed.

Lemma round_half_even_near (q : Q) :
  (inject_Z (JS.round_half_even q) - (1 # 2) <= q <= inject_Z (JS.round_half_even q) + (1 # 2))%Q.
Proof.
  unfold JS.round_half_even. cbv zeta.
  pose proof (Qfloor_le q) as H1. pose proof (Qlt_floor q) as H2.
  rewrite inject_Z_plus in H2. change (inject_Z 1) with 1%Q in H2.
  destruct (Qcompare_spec (q - inject_Z (Qfloor q)) (1 # 2)) as [E|E|E].
  - destruct (Z.even (Qfloor q)); [lra|]. rewrite inject_Z_plus. change (inject_Z 1) with 1%Q. lra.
  - lra.
  - rewrite inject_Z_plus. change (inject_Z 1) with 1%Q. lra.
Qed.

Lemma Qfloor_unique (q : Q) (n : Z) :
  (inject_Z n <= q)%Q -> (q < inject_Z n + 1)%Q -> Qfloor q = n.
Proof.
  intros H1 H2.
  pose proof (Qfloor_le q) as H3. pose proof (Qlt_floor q) as H4.
  rewrite inject_Z_plus in H4. change (inject_Z 1) with 1%Q in H4.
  assert (Ha : (inject_Z (Qfloor q) < inject_Z (n + 1))%Q).
  { rewrite inject_Z_plus. change (inject_Z 1) with 1%Q. lra. }
  assert (Hb : (inject_Z n < inject_Z (Qfloor q + 1))%Q).
  { rewrite inject_Z_plus. change (inject_Z 1) with 1%Q. lra. }
  rewrite <- Zlt_Qlt in Ha, Hb. lia.
Qed.

Lemma divide_cents_near (a : Z) :
  a <> 0 -> Z.abs a < 100 * 2 ^ 46 ->
  Qle_bool 0 (JS.divide a 100) = (0 <=? a) ∧
  (inject_Z (Z.abs a) - (100 # 256) <= Qabs (JS.divide a 100) * (100 # 1))%Q ∧
  (Qabs (JS.divide a 100) * (100 # 1) <= inject_Z (Z.abs a) + (100 # 256))%Q.
Proof.
  intros Ha0 Hlt. unfold JS.divide.
  change (inject_Z a / inject_Z 100)%Q with (a * 1 # 100)%Q.
  unfold JS.round_double.
  assert (Hz : Qeq_bool (a * 1 # 100) 0 = false).
  { unfold Qeq_bool. simpl. apply Z.eqb_neq. lia. }
  rewrite Hz. cbv zeta.
  change (Qabs (a * 1 # 100)) with (Z.abs (a * 1) # 100)%Q.
  set (qa := (Z.abs (a * 1) # 100)%Q).
  assert (Hqa : (qa * (100 # 1) == inject_Z (Z.abs a))%Q).
  { unfold qa, Qeq, Qmult, inject_Z. simpl. lia. }
  assert (Hqa1 : (1 # 100 <= qa)%Q).
  { unfold qa, Qle. simpl. lia. }
  assert (He : JS.floor_log2 qa - 52 <= -7).
  { enough (JS.floor_log2 qa <= 45) by lia. apply floor_log2_small.
    - unfold qa, Qlt. simpl. lia.
    - unfold qa. cbn [Qnum Qden]. change (Z.log2 100) with 6.
      enough (Z.log2 (Z.abs (a * 1)) < 53) by lia.
      apply Z.log2_lt_pow2; lia. }
  set (e := JS.floor_log2 qa - 52) in *.
  pose proof (Qpow2_pos e) as Hp. pose proof (Qpow2_small e He) as Hp'.
  set (p := JS.Qpow2 e) in *.
  pose proof (round_half_even_near (qa / p)) as [Hm1 Hm2].
  set (m := inject_Z (JS.round_half_even (qa / p))) in *.
  assert (Hdiv : (qa / p * p == qa)%Q) by (field; lra).
  assert (Ht1 : (qa - (1 # 256) <= m * p)%Q) by nra.
  assert (Ht2 : (m * p <= qa + (1 # 256))%Q) by nra.
  assert (Hs : Qle_bool 0 (a * 1 # 100) = (0 <=? a)).
  { unfold Qle_bool. simpl. f_equal; lia. }
  rewrite Hs.
  destruct (Z.leb_spec 0 a) as [Hpos|Hneg].
  - cbv iota. assert (Hx : (0 <= 1 * (m * p))%Q) by lra.
    split; [apply Qle_bool_iff; exact Hx|].
    rewrite (Qabs_pos _ Hx). split; lra.
  - cbv iota. assert (Hx : (- (1) * (m * p) <= 0)%Q) by lra.
    split.
    + apply not_true_is_false. intros E. apply Qle_bool_iff in E. lra.
    + rewrite (Qabs_neg _ Hx). split; lra.
Qed.

Lemma toFixed_cents (a : Z) :
  Z.abs a < 100 * 2 ^ 46 ->
  JS.Number_toFixed (JS.divide a 100) 2 = two_decimals a.
Proof.
  intros Hlt. destruct (Z.eq_dec a 0) as [->|Ha0]; [reflexivity|].
  destruct (divide_cents_near a Ha0 Hlt) as (Hs & H1 & H2).
  assert (Hq : (inject_Z (Z.abs a) < inject_Z (100 * 2 ^ 46))%Q) by (by rewrite <- Zlt_Qlt).
  change (inject_Z (100 * 2 ^ 46)) with (7036874417766400 # 1)%Q in Hq.
  unfold JS.Number_toFixed, two_decimals. cbv zeta. rewrite Hs.
  assert (Hbig : Qle_bool (inject_Z (10 ^ 21)) (Qabs (JS.divide a 100)) = false).
  { apply not_true_is_false. intros E. apply Qle_bool_iff in E.
    change (inject_Z (10 ^ 21)) with (1000000000000000000000 # 1)%Q in E.
    lra. }
  rewrite Hbig.
  assert (Hn : Qfloor (Qabs (JS.divide a 100) * inject_Z (JS.Math_pow10 2) + (1 # 2)) = Z.abs a).
  { apply Qfloor_unique; change (inject_Z (JS.Math_pow10 2)) with (100 # 1)%Q; lra. }
  rewrite Hn. reflexivity.
Qed.

(** ** processBillsData *)

Section OrderedMapFacts.
Context {V : Type}.
Implicit Types (m : list (string * V)) (k n : string) (v : V).

Lemma Map_get_set n k v m :
  Map_get n (Map_set k v m) = if bool_decide (k = n) then Some v else Map_get n m.
Proof.
  induction m as [|[k' v'] m IH]; simpl.
  - done.
  - destruct (bool_decide_reflect (k' = k)) as [->|Hk]; simpl.
    + by destruct (bool_decide_reflect (k = n)).
    + rewrite IH.
      destruct (bool_decide_reflect (k' = n)) as [->|Hn]; [|done].
      by rewrite bool_decide_eq_false_2.
Qed.

Lemma Map_has_get k m : Map_has k m = bool_decide (is_Some (Map_get k m)).
Proof.
  unfold Map_has. destruct (Map_get k m); symmetry.
  - apply bool_decide_eq_true_2; eauto.
  - apply bool_decide_eq_false_2. by intros [? ?].
Qed.
End OrderedMapFacts.

Lemma inner_loop_included year yd cd :
  fold_left (process_bill year (campaigns yd)) (bills yd) cd =
  fold_left step (included_of year yd) cd.
Proof.
  unfold included_of. generalize (campaigns yd) as cs. intros cs.
  revert cd. induction (bills yd) as [|b l IH]; intros cd; [done|].
  cbn [fold_left omap list_omap]. unfold process_bill at 2.
  destruct (resolve cs b) as [c|]; cbn [fold_left]; apply IH.
Qed.

Lemma outer_loop_included entries cd :
  fold_left
    (fun creatorData '(year, yd) =>
       fold_left (process_bill year (campaigns yd)) (bills yd) creatorData)
    entries cd =
  fold_left step (included entries) cd.
Proof.
  revert cd. induction entries as [|[y yd] entries IH]; intros cd; [done|].
  cbn [fold_left]. unfold included. cbn [map concat fst snd].
  rewrite fold_left_app, IH, inner_loop_included. done.
Qed.

(** The two loops amount to one pass over the included bills. *)
Lemma processBillsData_included entries :
  processBillsData entries = fold_left step (included entries) [].
Proof. apply outer_loop_included. Qed.

Lemma yearly_sum_empty : yearly_sum ∅ = 0.
Proof. apply map_fold_empty. Qed.

Lemma yearly_sum_insert_fresh (m : gmap string Z) y v :
  m !! y = None -> yearly_sum (<[y := v]> m) = v + yearly_sum m.
Proof.
  intros Hy. unfold yearly_sum.
  rewrite map_fold_insert_L; [done| |done].
  intros; lia.
Qed.

Lemma yearly_sum_delete (m : gmap string Z) k :
  yearly_sum m = default 0 (m !! k) + yearly_sum (delete k m).
Proof.
  destruct (m !! k) as [v|] eqn:Hk; cbn.
  - unfold yearly_sum. rewrite (map_fold_delete_L _ _ k v m); [done| |done].
    intros; lia.
  - by rewrite delete_id.
Qed.

Lemma yearly_sum_insert (m : gmap string Z) y v :
  yearly_sum (<[y := v]> m) = yearly_sum m + v - JS.or_zero (m !! y).
Proof.
  destruct (m !! y) as [w|] eqn:Hy.
  - rewrite <- insert_delete_eq.
    rewrite yearly_sum_insert_fresh by apply lookup_delete_eq.
    rewrite (yearly_sum_delete m y), Hy. cbn. lia.
  - rewrite yearly_sum_insert_fresh by done. cbn. lia.
Qed.

Lemma yearly_sum_abs_nonneg (m : gmap string Z) : 0 <= yearly_sum (Z.abs <$> m).
Proof.
  induction m as [|y v m Hy _ IH] using map_first_key_ind.
  - by rewrite fmap_empty, yearly_sum_empty.
  - rewrite fmap_insert, yearly_sum_insert_fresh; [lia|].
    by rewrite lookup_fmap, Hy.
Qed.

Lemma yearly_sum_abs_bound (m : gmap string Z) y v :
  m !! y = Some v -> Z.abs v <= yearly_sum (Z.abs <$> m).
Proof.
  intros Hy. rewrite (yearly_sum_delete _ y), lookup_fmap, Hy, <- fmap_delete. cbn.
  pose proof (yearly_sum_abs_nonneg (delete y m)). lia.
Qed.

Lemma stored_sum_set f (cd : list (string * creator)) k c :
  stored_sum f (Map_set k c cd) =
  stored_sum f cd + yearly_sum (f <$> yearlySpends c) -
  match Map_get k cd with
  | Some c0 => yearly_sum (f <$> yearlySpends c0)
  | None => 0
  end.
Proof.
  unfold stored_sum.
  induction cd as [|[k' c'] cd IH]; simpl.
  - lia.
  - destruct (bool_decide (k' = k)); simpl; [lia|]. rewrite IH. lia.
Qed.

Lemma grand_total_stored cd : grand_total cd = stored_sum id cd.
Proof.
  unfold grand_total, stored_sum. f_equal. apply map_ext. intros e.
  by rewrite map_fmap_id.
Qed.

(** What one more included bill does to a sum over the stored totals: the
    total of its creator and year is replaced by the float sum. *)
Lemma stored_sum_accumulate f year campaign bill cd :
  f 0 = 0 ->
  stored_sum f (accumulate year campaign bill cd) =
  stored_sum f cd +
  f (JS.add (JS.or_zero (total_of cd (attr_name (item_attributes campaign)) year))
            (amountCents_of bill)) -
  f (JS.or_zero (total_of cd (attr_name (item_attributes campaign)) year)).
Proof.
  intros Hf. unfold accumulate, total_of.
  set (n := attr_name (item_attributes campaign)).
  unfold Map_has.
  destruct (Map_get n cd) as [c0|] eqn:Hget.
  - rewrite Hget. rewrite stored_sum_set, Hget.
    unfold set_yearlySpend. cbn [yearlySpends].
    rewrite fmap_insert, yearly_sum_insert, lookup_fmap.
    destruct (yearlySpends c0 !! year); cbn; rewrite ?Hf; lia.
  - rewrite Map_get_set, bool_decide_eq_true_2 by done.
    rewrite !stored_sum_set, Map_get_set, bool_decide_eq_true_2, Hget by done.
    unfold set_yearlySpend. cbn [yearlySpends].
    rewrite fmap_insert, fmap_empty, yearly_sum_insert, lookup_empty, yearly_sum_empty.
    cbn. rewrite ?Hf. lia.
Qed.

Lemma grand_total_accumulate year campaign bill cd :
  grand_total (accumulate year campaign bill cd) =
  grand_total cd +
  JS.add (JS.or_zero (total_of cd (attr_name (item_attributes campaign)) year))
         (amountCents_of bill) -
  JS.or_zero (total_of cd (attr_name (item_attributes campaign)) year).
Proof. rewrite !grand_total_stored. by apply stored_sum_accumulate. Qed.

Lemma grand_magnitude_nonneg cd : 0 <= grand_magnitude cd.
Proof.
  unfold grand_magnitude, stored_sum.
  induction cd as [|[k c] cd IH]; cbn [map sumZ foldr snd]; [done|].
  pose proof (yearly_sum_abs_nonneg (yearlySpends c)). unfold sumZ in *. lia.
Qed.

(** Every stored total is bounded by the grand magnitude. *)
Lemma grand_magnitude_bound cd n y v :
  total_of cd n y = Some v -> Z.abs v <= grand_magnitude cd.
Proof.
  unfold total_of, grand_magnitude, stored_sum.
  induction cd as [|[k c] cd IH]; cbn [map sumZ foldr snd Map_get]; [done|].
  pose proof (yearly_sum_abs_nonneg (yearlySpends c)).
  pose proof (grand_magnitude_nonneg cd) as Hcd.
  unfold grand_magnitude, stored_sum in Hcd. unfold sumZ in *.
  destruct (bool_decide (k = n)).
  - intros Hv%yearly_sum_abs_bound. lia.
  - intros Hv. specialize (IH Hv). lia.
Qed.

Lemma grand_magnitude_entry cd e :
  e ∈ cd -> yearly_sum (Z.abs <$> yearlySpends (snd e)) <= grand_magnitude cd.
Proof.
  unfold grand_magnitude, stored_sum.
  induction cd as [|e' cd IH]; cbn [map sumZ foldr]; [by intros ?%elem_of_nil|].
  pose proof (yearly_sum_abs_nonneg (yearlySpends (snd e'))).
  pose proof (grand_magnitude_nonneg cd) as Hcd.
  unfold grand_magnitude, stored_sum in Hcd. unfold sumZ in *.
  intros [->|Hin]%elem_of_cons; [lia|]. specialize (IH Hin). lia.
Qed.

Lemma magnitude_nonneg bill : 0 <= magnitude bill.
Proof. unfold magnitude. lia. Qed.

Lemma combined_amount_bound bill : Z.abs (combined_amount bill) <= magnitude bill.
Proof. unfold combined_amount, magnitude. lia. Qed.

Lemma amountCents_of_safe bill :
  JS.safe (combined_amount bill) -> amountCents_of bill = combined_amount bill.
Proof. apply add_safe. Qed.

(** The entry of a creator after one more included bill. *)
Lemma Map_get_accumulate n year campaign bill cd :
  Map_get n (accumulate year campaign bill cd) =
  if bool_decide (attr_name (item_attributes campaign) = n) then
    let c := match Map_get n cd with
             | Some c => c
             | None => {| cr_name := n; yearlySpends := ∅;
                          cr_currency := attr_currency (item_attributes bill);
                          cr_url := attr_url (item_attributes campaign) |}
             end in
    Some (set_yearlySpend year
            (JS.add (JS.or_zero (yearlySpends c !! year)) (amountCents_of bill)) c)
  else Map_get n cd.
Proof.
  unfold accumulate.
  set (m := attr_name (item_attributes campaign)).
  unfold Map_has.
  destruct (Map_get m cd) as [c0|] eqn:Hget.
  - rewrite Hget, Map_get_set.
    destruct (bool_decide_reflect (m = n)) as [<-|Hn]; [|done].
    by rewrite Hget.
  - rewrite Map_get_set, bool_decide_eq_true_2 by done.
    rewrite !Map_get_set.
    destruct (bool_decide_reflect (m = n)) as [<-|Hn]; [|done].
    by rewrite Hget.
Qed.

Lemma total_of_accumulate n y year campaign bill cd :
  total_of (accumulate year campaign bill cd) n y =
  if bool_decide (attr_name (item_attributes campaign) = n ∧ year = y) then
    Some (JS.add (JS.or_zero (total_of cd n y)) (amountCents_of bill))
  else total_of cd n y.
Proof.
  unfold total_of. rewrite Map_get_accumulate.
  destruct (bool_decide_reflect (attr_name (item_attributes campaign) = n)) as [Hn|Hn].
  - cbn zeta. unfold set_yearlySpend. cbn [yearlySpends].
    destruct (bool_decide_reflect (year = y)) as [->|Hy].
    + rewrite bool_decide_eq_true_2 by done. rewrite lookup_insert_eq.
      destruct (Map_get n cd); [done|]. cbn [yearlySpends]. by rewrite lookup_empty.
    + rewrite bool_decide_eq_false_2 by (intros [? ?]; done).
      rewrite lookup_insert_ne by done.
      destruct (Map_get n cd); [done|]. cbn [yearlySpends]. by rewrite lookup_empty.
  - rewrite bool_decide_eq_false_2 by (intros [? ?]; done). done.
Qed.

Lemma total_of_step n y t cd :
  total_of (step cd t) n y =
  if concerns n y t then Some (JS.add (JS.or_zero (total_of cd n y)) (amount_of t))
  else total_of cd n y.
Proof. unfold step. apply total_of_accumulate. Qed.

Lemma sumZ_cons x l : sumZ (x :: l) = x + sumZ l.
Proof. done. Qed.

Lemma sumZ_app l l' : sumZ (l ++ l') = sumZ l + sumZ l'.
Proof. unfold sumZ. induction l as [|x l IH]; cbn [app foldr]; lia. Qed.

Lemma sumZ_magnitude_nonneg (items : list (string * item * item)) :
  0 <= sumZ (map magnitude_of items).
Proof.
  induction items as [|t items IH]; [done|].
  cbn [map]. rewrite sumZ_cons.
  pose proof (magnitude_nonneg (snd t)). unfold magnitude_of at 1. lia.
Qed.

(** One more included bill, while the magnitudes stay within 2^53: the sums
    are the sums of the integers. *)
Lemma step_safe t cd :
  grand_magnitude cd + magnitude_of t <= 2 ^ 53 ->
  grand_total (step cd t) = grand_total cd + exact_of t ∧
  grand_magnitude (step cd t) <= grand_magnitude cd + magnitude_of t ∧
  forall n y,
    total_of (step cd t) n y =
    if concerns n y t then Some (JS.or_zero (total_of cd n y) + exact_of t)
    else total_of cd n y.
Proof.
  intros Hsafe.
  pose proof (grand_magnitude_nonneg cd) as Hnn.
  pose proof (magnitude_nonneg (snd t)) as Hmag.
  pose proof (combined_amount_bound (snd t)) as Hamt.
  fold (magnitude_of t) in Hmag, Hamt. fold (exact_of t) in Hamt.
  assert (Hbill : amountCents_of (snd t) = exact_of t).
  { apply amountCents_of_safe. unfold JS.safe. fold (exact_of t). lia. }
  set (cur := JS.or_zero (total_of cd (name_of t) (year_of t))).
  assert (Hcur : Z.abs cur <= grand_magnitude cd).
  { unfold cur. destruct (total_of cd (name_of t) (year_of t)) as [v|] eqn:Hv; cbn.
    - by eapply grand_magnitude_bound.
    - lia. }
  assert (Hadd : JS.add cur (exact_of t) = cur + exact_of t).
  { apply add_safe. unfold JS.safe. lia. }
  split; [|split].
  - unfold step. rewrite grand_total_accumulate.
    fold (name_of t). fold (year_of t). fold cur. rewrite Hbill, Hadd. lia.
  - unfold step, grand_magnitude. rewrite stored_sum_accumulate by done.
    fold (name_of t). fold (year_of t). fold cur. fold (grand_magnitude cd).
    rewrite Hbill, Hadd. lia.
  - intros n y. rewrite total_of_step. unfold concerns.
    destruct (bool_decide_reflect (name_of t = n ∧ year_of t = y)) as [[<- <-]|]; [|done].
    fold cur. unfold amount_of. by rewrite Hbill, Hadd.
Qed.

(** A stored total is the sum over the included bills of that creator and
    year, and it exists as soon as there is one such bill; the stored totals
    add up to the amounts of the included bills. *)
Lemma steps_safe items cd :
  grand_magnitude cd + sumZ (map magnitude_of items) <= 2 ^ 53 ->
  grand_total (fold_left step items cd) = grand_total cd + sumZ (map exact_of items) ∧
  grand_magnitude (fold_left step items cd) <=
    grand_magnitude cd + sumZ (map magnitude_of items) ∧
  forall n y,
    total_of (fold_left step items cd) n y =
    match List.filter (concerns n y) items with
    | [] => total_of cd n y
    | ms => Some (JS.or_zero (total_of cd n y) + sumZ (map exact_of ms))
    end.
Proof.
  revert cd. induction items as [|t items IH]; intros cd Hsafe.
  - cbn [fold_left map List.filter]. change (sumZ []) with 0 in *.
    split; [lia|]. split; [lia|done].
  - cbn [map] in *. rewrite !sumZ_cons in *.
    pose proof (sumZ_magnitude_nonneg items) as Hnn.
    destruct (step_safe t cd) as (Ht1 & Ht2 & Ht3); [lia|].
    destruct (IH (step cd t)) as (H1 & H2 & H3); [lia|].
    cbn [fold_left]. split; [|split].
    + rewrite H1, Ht1. lia.
    + lia.
    + intros n y. rewrite H3, Ht3. cbn [List.filter].
      destruct (concerns n y t); [|done].
      destruct (List.filter (concerns n y) items) as [|m ms].
      * cbn [map]. rewrite sumZ_cons. change (sumZ []) with 0. f_equal. lia.
      * simpl (JS.or_zero (Some _)). cbn [map]. rewrite !sumZ_cons. f_equal. lia.
Qed.

Lemma magnitude_included_of year yd :
  sumZ (map magnitude_of (included_of year yd)) <= sumZ (map magnitude (bills yd)).
Proof.
  unfold included_of. induction (bills yd) as [|b l IH]; cbn [omap list_omap map]; [done|].
  pose proof (magnitude_nonneg b).
  destruct (resolve (campaigns yd) b); cbn [map]; rewrite !sumZ_cons;
    [unfold magnitude_of at 1; cbn [snd]|]; lia.
Qed.

Lemma all_bills_app pre post : all_bills (pre ++ post) = all_bills pre ++ all_bills post.
Proof. unfold all_bills. by rewrite map_app, concat_app. Qed.

Lemma total_magnitude_cons e post :
  total_magnitude (e :: post) = sumZ (map magnitude (bills (snd e))) + total_magnitude post.
Proof. unfold total_magnitude, all_bills. cbn [map concat]. by rewrite map_app, sumZ_app. Qed.

Lemma magnitude_included billsByYear :
  sumZ (map magnitude_of (included billsByYear)) <= total_magnitude billsByYear.
Proof.
  induction billsByYear as [|e l IH]; [done|].
  rewrite total_magnitude_cons. unfold included in *. cbn [map concat].
  rewrite map_app, sumZ_app.
  pose proof (magnitude_included_of (fst e) (snd e)). lia.
Qed.

(** Within the safe range the aggregate is described by sums of integers. *)
Lemma processBillsData_safe billsByYear :
  in_safe_range billsByYear ->
  grand_total (processBillsData billsByYear) = included_amount billsByYear ∧
  grand_magnitude (processBillsData billsByYear) <= total_magnitude billsByYear ∧
  forall n y,
    total_of (processBillsData billsByYear) n y =
    match List.filter (concerns n y) (included billsByYear) with
    | [] => None
    | ms => Some (sumZ (map exact_of ms))
    end.
Proof.
  intros Hsafe. unfold in_safe_range in Hsafe.
  pose proof (magnitude_included billsByYear) as Hle.
  rewrite processBillsData_included.
  destruct (steps_safe (included billsByYear) []) as (H1 & H2 & H3).
  { change (grand_magnitude []) with 0. lia. }
  change (grand_magnitude []) with 0 in H2. change (grand_total []) with 0 in H1.
  split; [|split].
  - rewrite H1, Z.add_0_l. reflexivity.
  - lia.
  - intros n y. rewrite H3. by destruct (List.filter _ _).
Qed.

Lemma sumZ_perm l l' : Permutation l l' -> sumZ l = sumZ l'.
Proof. induction 1; simpl; lia. Qed.

Lemma included_of_perm year cs bs bs' :
  Permutation bs bs' ->
  Permutation (included_of year {| bills := bs; campaigns := cs |})
              (included_of year {| bills := bs'; campaigns := cs |}).
Proof.
  unfold included_of. cbn [bills campaigns].
  induction 1 as [|b l l' _ IH|b1 b2 l|l1 l2 l3 _ IH1 _ IH2]; cbn [omap list_omap].
  - done.
  - destruct (resolve cs b); [by constructor | done].
  - destruct (resolve cs b1), (resolve cs b2); try done. apply perm_swap.
  - by etransitivity.
Qed.

Lemma included_app pre post : included (pre ++ post) = included pre ++ included post.
Proof. unfold included. by rewrite map_app, concat_app. Qed.

Lemma included_cons e post : included (e :: post) = included_of (fst e) (snd e) ++ included post.
Proof. done. Qed.

Lemma filter_nil_perm {A} (P : A -> bool) (l l' : list A) :
  Permutation l l' ->
  match List.filter P l with [] => List.filter P l' = [] | _ :: _ => List.filter P l' <> [] end.
Proof.
  intros Hp.
  assert (Hf : Permutation (List.filter P l) (List.filter P l')).
  { clear -Hp. induction Hp; simpl; repeat destruct (P _); eauto using Permutation. }
  destruct (List.filter P l).
  - by apply Permutation_nil.
  - intros He. rewrite He in Hf. symmetry in Hf. by apply Permutation_nil in Hf.
Qed.

Lemma filter_perm {A} (P : A -> bool) (l l' : list A) :
  Permutation l l' -> Permutation (List.filter P l) (List.filter P l').
Proof. induction 1; simpl; repeat destruct (P _); eauto using Permutation. Qed.

Lemma matching_sum_perm n y items items' :
  Permutation items items' ->
  match List.filter (concerns n y) items with
  | [] => None
  | ms => Some (sumZ (map exact_of ms))
  end =
  match List.filter (concerns n y) items' with
  | [] => None
  | ms => Some (sumZ (map exact_of ms))
  end.
Proof.
  intros Hp.
  pose proof (filter_perm (concerns n y) _ _ Hp) as Hf.
  pose proof (filter_nil_perm (concerns n y) _ _ Hp) as Hn.
  destruct (List.filter (concerns n y) items) as [|m ms] eqn:E.
  - by rewrite Hn.
  - destruct (List.filter (concerns n y) items') as [|m' ms'] eqn:E'; [done|].
    f_equal. apply sumZ_perm. by apply Permutation_map.
Qed.

(** Currency and URL of a creator already present are kept by every later
    bill. *)
Lemma step_keeps_first n t cd c :
  Map_get n cd = Some c ->
  exists c', Map_get n (step cd t) = Some c' ∧
             cr_currency c' = cr_currency c ∧ cr_url c' = cr_url c.
Proof.
  intros Hc. unfold step. rewrite Map_get_accumulate.
  destruct (bool_decide _).
  - rewrite Hc. cbn zeta. eexists; split; [reflexivity|]. done.
  - eauto.
Qed.

Lemma steps_keep_first n items cd c :
  Map_get n cd = Some c ->
  exists c', Map_get n (fold_left step items cd) = Some c' ∧
             cr_currency c' = cr_currency c ∧ cr_url c' = cr_url c.
Proof.
  revert cd c. induction items as [|t items IH]; intros cd c Hc; simpl.
  - eauto.
  - destruct (step_keeps_first n t cd c Hc) as (c1 & H1 & Hcur & Hurl).
    destruct (IH _ _ H1) as (c2 & H2 & Hcur2 & Hurl2).
    exists c2. split; [done|]. split; congruence.
Qed.

Lemma steps_absent n items cd :
  Map_get n cd = None ->
  Forall (fun t => name_of t <> n) items ->
  Map_get n (fold_left step items cd) = None.
Proof.
  intros Hc Hall. revert cd Hc.
  induction Hall as [|t items Ht _ IH]; intros cd Hc; [done|].
  simpl. apply IH. unfold step. rewrite Map_get_accumulate.
  by rewrite bool_decide_eq_false_2.
Qed.

(** A creator is in the aggregate exactly when one included bill names it. *)
Lemma steps_present n items cd :
  is_Some (Map_get n (fold_left step items cd)) <->
  is_Some (Map_get n cd) ∨ Exists (fun t => name_of t = n) items.
Proof.
  revert cd. induction items as [|t items IH]; intros cd; cbn [fold_left].
  - split; [by left|]. intros [H|H]; [done | by apply Exists_nil in H].
  - rewrite IH, Exists_cons. unfold step at 1. rewrite Map_get_accumulate.
    unfold name_of at 2.
    destruct (bool_decide_reflect (attr_name (item_attributes t.1.2) = n)) as [Hn|Hn].
    + cbn zeta. split; [intros _; right; by left|]. intros _. left. by eexists.
    + tauto.
Qed.

Lemma resolve_unresolved cs b :
  unresolved cs b ∨ campaign_ref b = Some EmptyString -> resolve cs b = None.
Proof.
  unfold unresolved, resolve. intros [H| ->]; [|done].
  destruct (campaign_ref b) as [i|]; [|done].
  rewrite H. by destruct (bool_decide _).
Qed.

(** Where no bill refers to the empty id, the bills the code includes are the
    resolvable ones. *)
Lemma included_of_resolvable year yd :
  Forall (fun bill => campaign_ref bill <> Some EmptyString) (bills yd) ->
  sumZ (map exact_of (included_of year yd)) =
  sumZ (map combined_amount (List.filter (resolvable (campaigns yd)) (bills yd))).
Proof.
  unfold included_of. induction 1 as [|b l Hb _ IH]; [done|].
  cbn [omap list_omap List.filter]. unfold resolve, resolvable at 1.
  destruct (campaign_ref b) as [i|]; [|exact IH].
  rewrite bool_decide_eq_false_2 by congruence.
  destruct (campaigns yd !! i) as [c|].
  - rewrite bool_decide_eq_true_2 by eauto. cbn [map sumZ foldr]. cbn in IH.
    unfold exact_of at 1. cbn [snd]. f_equal. exact IH.
  - rewrite bool_decide_eq_false_2 by (by intros [? ?]). exact IH.
Qed.

Lemma included_amount_resolvable billsByYear :
  no_empty_reference billsByYear ->
  included_amount billsByYear = resolvable_amount billsByYear.
Proof.
  unfold no_empty_reference, included_amount, resolvable_amount, included.
  induction billsByYear as [|e l IH]; [done|].
  unfold all_bills. cbn [map concat]. fold (all_bills l).
  intros [He Hl]%Forall_app. fold exact_of in *.
  rewrite map_app, sumZ_app. cbn [sumZ foldr]. f_equal.
  - by apply included_of_resolvable.
  - by apply IH.
Qed.

Lemma total_magnitude_perm pre post year bs bs' cs :
  Permutation bs bs' ->
  total_magnitude (pre ++ (year, {| bills := bs'; campaigns := cs |}) :: post) =
  total_magnitude (pre ++ (year, {| bills := bs; campaigns := cs |}) :: post).
Proof.
  intros Hp. unfold total_magnitude. rewrite !all_bills_app. unfold all_bills at 2 4.
  cbn [map concat snd bills]. rewrite !map_app, !sumZ_app. f_equal. f_equal.
  symmetry. apply sumZ_perm. by apply Permutation_map.
Qed.

(** ** Claims about the Aggregator *)

(** C2.  A bill whose campaign reference is missing, is not a key of the
    campaign mapping of its year, or is the empty string is skipped: the
    aggregate is the one computed without that bill.  When no bill refers to
    the empty string and the amounts of all bills stay together within 2^53,
    the per-creator per-year totals of the aggregate add up to the combined
    amounts of all resolvable bills. *)
Theorem processBillsData_skips_unresolved
    (pre post : list (string * year_data)) (year : string)
    (l1 l2 : list item) (b : item) (cs : gmap string item) :
  unresolved cs b ∨ campaign_ref b = Some EmptyString ->
  let billsByYear := pre ++ (year, {| bills := l1 ++ b :: l2; campaigns := cs |}) :: post in
  let without := pre ++ (year, {| bills := l1 ++ l2; campaigns := cs |}) :: post in
  processBillsData billsByYear = processBillsData without ∧
  included billsByYear = included without ∧
  (no_empty_reference billsByYear -> in_safe_range billsByYear ->
   grand_total (processBillsData billsByYear) = resolvable_amount billsByYear).
Proof.
  intros Hb billsByYear without.
  assert (Hinc : included billsByYear = included without).
  { unfold billsByYear, without. rewrite !included_app, !included_cons.
    f_equal. f_equal. unfold included_of. cbn [fst snd bills campaigns].
    rewrite !omap_app. f_equal. cbn [omap list_omap].
    by rewrite (resolve_unresolved _ _ Hb). }
  split; [|split].
  - by rewrite !processBillsData_included, Hinc.
  - exact Hinc.
  - intros Hne Hsafe.
    destruct (processBillsData_safe billsByYear Hsafe) as (-> & _).
    by apply included_amount_resolvable.
Qed.

(** C3.  When the amounts of all bills stay together within 2^53, permuting
    the bills of one year leaves every per-creator per-year total of the
    aggregate unchanged: each creator has the same mapping from year to
    total. *)
Theorem processBillsData_order_independent
    (pre post : list (string * year_data)) (year : string)
    (bs bs' : list item) (cs : gmap string item) (n y : string) :
  Permutation bs bs' ->
  let billsByYear := pre ++ (year, {| bills := bs; campaigns := cs |}) :: post in
  let shuffled := pre ++ (year, {| bills := bs'; campaigns := cs |}) :: post in
  in_safe_range billsByYear ->
  total_of (processBillsData billsByYear) n y =
    total_of (processBillsData shuffled) n y ∧
  yearlySpends <$> Map_get n (processBillsData billsByYear) =
    yearlySpends <$> Map_get n (processBillsData shuffled).
Proof.
  intros Hp billsByYear shuffled Hsafe.
  assert (Hsafe' : in_safe_range shuffled).
  { unfold in_safe_range, shuffled. by rewrite (total_magnitude_perm _ _ _ _ _ _ Hp). }
  assert (Hinc : Permutation (included billsByYear) (included shuffled)).
  { unfold billsByYear, shuffled.
    rewrite !included_app, !included_cons. cbn [fst snd].
    apply Permutation_app_head, Permutation_app_tail.
    by apply included_of_perm. }
  assert (Htot : forall y',
            total_of (processBillsData billsByYear) n y' =
            total_of (processBillsData shuffled) n y').
  { intros y'.
    destruct (processBillsData_safe _ Hsafe) as (_ & _ & ->).
    destruct (processBillsData_safe _ Hsafe') as (_ & _ & ->).
    by apply matching_sum_perm. }
  split; [apply Htot|].
  pose proof (steps_present n (included billsByYear) []) as H1.
  pose proof (steps_present n (included shuffled) []) as H2.
  rewrite <- !processBillsData_included in H1, H2.
  assert (Hex : Exists (fun t => name_of t = n) (included billsByYear) <->
                Exists (fun t => name_of t = n) (included shuffled)).
  { rewrite !List.Exists_exists. split; intros (t & Hin & Ht); exists t; split; try done.
    - eapply Permutation_in; [exact Hinc | exact Hin].
    - eapply Permutation_in; [symmetry; exact Hinc | exact Hin]. }
  unfold total_of in Htot.
  destruct (Map_get n (processBillsData billsByYear)) as [c|],
           (Map_get n (processBillsData shuffled)) as [c'|]; cbn [fmap option_fmap option_map].
  - f_equal. apply map_eq. exact Htot.
  - exfalso. assert (is_Some (@None creator)) as [? [=]].
    apply H2. right. apply Hex. destruct H1 as [H1 _].
    destruct (H1 (mk_is_Some _ _ eq_refl)) as [[? [=]]|]; done.
  - exfalso. assert (is_Some (@None creator)) as [? [=]].
    apply H1. right. apply Hex. destruct H2 as [H2 _].
    destruct (H2 (mk_is_Some _ _ eq_refl)) as [[? [=]]|]; done.
  - done.
Qed.

(** C8.  While the sums stay within 2^53, the combined amount of a bill is
    its base amount plus its tax amount, an absent tax amount counting as 0,
    and an included bill adds exactly that amount to the total of its creator
    for its year. *)
Theorem combined_amount_base_plus_tax
    (year : string) (cs : gmap string item) (cd : list (string * creator))
    (bill campaign : item) (base : Z) :
  amount_cents (item_attributes bill) = Some base ->
  resolve cs bill = Some campaign ->
  JS.safe (combined_amount bill) ->
  JS.safe (JS.or_zero (total_of cd (attr_name (item_attributes campaign)) year) +
           combined_amount bill) ->
  amountCents_of bill =
    base + match vat_charge_amount_cents (item_attributes bill) with
           | Some tax => tax
           | None => 0
           end ∧
  total_of (process_bill year cs cd bill) (attr_name (item_attributes campaign)) year =
    Some (JS.or_zero (total_of cd (attr_name (item_attributes campaign)) year) +
          amountCents_of bill).
Proof.
  intros Hbase Hres Hbill Htotal.
  rewrite (amountCents_of_safe _ Hbill). split.
  - unfold combined_amount. rewrite Hbase.
    by destruct (vat_charge_amount_cents (item_attributes bill)).
  - unfold process_bill. rewrite Hres, total_of_accumulate.
    rewrite bool_decide_eq_true_2 by done.
    by rewrite (amountCents_of_safe _ Hbill), add_safe.
Qed.

(** C9.  The currency and URL stored for a creator name are those of the first
    included bill with that name (the currency of the bill, the URL of its
    campaign), whatever the bills processed after it carry. *)
Theorem first_seen_currency_and_url_win
    (billsByYear : list (string * year_data))
    (before after : list (string * item * item)) (t : string * item * item) :
  included billsByYear = before ++ t :: after ->
  Forall (fun t' => name_of t' <> name_of t) before ->
  exists c, Map_get (name_of t) (processBillsData billsByYear) = Some c ∧
            cr_currency c = attr_currency (item_attributes (snd t)) ∧
            cr_url c = attr_url (item_attributes (snd (fst t))).
Proof.
  intros Hsplit Hfirst.
  rewrite processBillsData_included, Hsplit, fold_left_app. cbn [fold_left].
  pose proof (steps_absent (name_of t) before [] eq_refl Hfirst) as Habs.
  set (cd := fold_left step before []) in *.
  assert (Hnew : exists c, Map_get (name_of t) (step cd t) = Some c ∧
            cr_currency c = attr_currency (item_attributes (snd t)) ∧
            cr_url c = attr_url (item_attributes (snd (fst t)))).
  { unfold step. rewrite Map_get_accumulate.
    unfold name_of in *. rewrite bool_decide_eq_true_2 by done.
    rewrite Habs. cbn zeta. eexists; split; [reflexivity|]. done. }
  destruct Hnew as (c & Hc & Hcur & Hurl).
  destruct (steps_keep_first (name_of t) after _ c Hc) as (c' & Hc' & Hcur' & Hurl').
  exists c'. split; [done|]. split; congruence.
Qed.

(** ** fetchYearData *)

Section FetchFacts.
Variables (this : PatreonDataExporter) (net : network) (year : Z).

Local Abbreviation ps := (pageSize this).
Local Abbreviation page_bills := (fun d : document => List.filter is_bill (doc_data d)).
Local Abbreviation offsets := (offsets_from this year).


(** The body of the loop on a failed request. *)
Lemma loop_body_failed fetch s e e' status statusText json :
  (fetch (buildApiUrl this year (offset s)) = Rejected e ∧ e' = e) ∨
  (fetch (buildApiUrl this year (offset s)) = Resolved false status statusText json ∧
   e' = http_error status statusText) ∨
  (fetch (buildApiUrl this year (offset s)) = Resolved true status statusText (inl e) ∧
   e' = e) ->
  loop_body this year fetch s =
  ([EvFetch (buildApiUrl this year (offset s)); EvConsoleError year (offset s) e'],
   Throw e').
Proof.
  unfold loop_body.
  intros [[-> ->]|[[-> ->]|[-> ->]]]; reflexivity.
Qed.

(** Every pass issues exactly one request, for the current offset. *)
Lemma loop_body_requests fetch s :
  requests (loop_body this year fetch s).1 = [buildApiUrl this year (offset s)].
Proof.
  unfold loop_body.
  destruct (fetch _) as [e|[] status statusText [e|d]]; cbn [negb fst]; try done.
  by destruct (_ <? _).
Qed.

Lemma loop_body_continue fetch s evs s' :
  loop_body this year fetch s = (evs, Continue s') -> offset s' = offset s + ps.
Proof.
  unfold loop_body.
  destruct (fetch _) as [e|[] status statusText [e|d]]; cbn [negb]; try done.
  destruct (_ <? _); [done|]. by intros [= _ <-].
Qed.

Lemma requests_app evs evs' : requests (evs ++ evs') = requests evs ++ requests evs'.
Proof. unfold requests. apply omap_app. Qed.

Lemma offsets_from_S o n :
  offsets o (S n) = buildApiUrl this year o :: offsets (o + ps) n.
Proof.
  unfold offsets_from. cbn [seq map]. f_equal.
  - f_equal. lia.
  - rewrite <- seq_shift, map_map. apply map_ext. intros i. f_equal. lia.
Qed.

(** No offset is requested twice: whatever the network answers and however
    the run ends, the requests are for the offsets 0, pageSize, 2 pageSize,
    ... in this order. *)
Lemma fetch_loop_requests fuel k s :
  let evs := (fetch_loop this net year fuel k s).1 in
  requests evs = offsets (offset s) (length (requests evs)).
Proof.
  revert k s. induction fuel as [|fuel IH]; intros k s; [done|].
  cbn [fetch_loop].
  pose proof (loop_body_requests (net k) s) as Hreq.
  destruct (loop_body this year (net k) s) as [evs [s'|s'|e]] eqn:Hbody;
    cbn [fst] in *.
  - specialize (IH (S k) s'). cbn zeta in IH.
    destruct (fetch_loop this net year fuel (S k) s') as [evs' o]. cbn [fst] in *.
    rewrite requests_app, Hreq. cbn [app length].
    rewrite offsets_from_S. f_equal.
    rewrite <- (loop_body_continue _ _ _ _ Hbody). exact IH.
  - rewrite Hreq. cbn. unfold offsets_from. cbn. do 2 f_equal. lia.
  - rewrite Hreq. cbn. unfold offsets_from. cbn. do 2 f_equal. lia.
Qed.

(** Only bill-typed records are accumulated. *)
Lemma fetch_loop_bills fuel k s evs r :
  Forall (fun i => item_type i = "bill") (allBills s) ->
  fetch_loop this net year fuel k s = (evs, Returned r) ->
  Forall (fun i => item_type i = "bill") (bills r).
Proof.
  revert k s evs. induction fuel as [|fuel IH]; intros k s evs Hs; [done|].
  cbn [fetch_loop].
  assert (Hstep : forall evs0 s', 
            (loop_body this year (net k) s = (evs0, Continue s') ∨
             loop_body this year (net k) s = (evs0, Break s')) ->
            Forall (fun i => item_type i = "bill") (allBills s')).
  { intros evs0 s'. unfold loop_body.
    destruct (net k _) as [e|[] status statusText [e|d]]; cbn [negb];
      try (intros [?|?]; done).
    assert (Forall (fun i => item_type i = "bill") (allBills s ++ page_bills d)).
    { apply Forall_app. split; [done|].
      apply List.Forall_forall. intros i [_ Hi]%List.filter_In.
      unfold is_bill in Hi. by apply bool_decide_eq_true_1 in Hi. }
    destruct (_ <? _); intros [[= _ <-]|[= _ <-]]; done. }
  destruct (loop_body this year (net k) s) as [evs0 [s'|s'|e]] eqn:Hbody.
  - destruct (fetch_loop this net year fuel (S k) s') as [evs' o] eqn:Hrest.
    intros [= _ ->]. eapply IH; [|exact Hrest]. eapply Hstep; eauto.
  - intros [= _ <-]. cbn [bills]. eapply Hstep; eauto.
  - done.
Qed.

Lemma fetchYearData_bills_only fuel evs r :
  fetchYearData this net fuel year = (evs, Returned r) ->
  Forall (fun i => item_type i = "bill") (bills r).
Proof. apply fetch_loop_bills. constructor. Qed.


End FetchFacts.



(** ** Claims about the Fetcher *)


(** C5.  A request that fails in transport or comes back with a
    non-success status ends the run at once: the run rejects with the
    underlying error, unchanged, after one diagnostic line that names year and
    offset; nothing fetched so far is returned and no further request is
    made. *)
Theorem fetch_failure_aborts_year
    (this : PatreonDataExporter) (net : network) (year : Z)
    (fuel k : nat) (s : loop_state)
    (e e' : error) (status : Z) (statusText : string) (json : error + document) :
  (net k (buildApiUrl this year (offset s)) = Rejected e ∧ e' = e) ∨
  (net k (buildApiUrl this year (offset s)) = Resolved false status statusText json ∧
   e' = http_error status statusText) ->
  fetch_loop this net year (S fuel) k s =
  ([EvFetch (buildApiUrl this year (offset s)); EvConsoleError year (offset s) e'],
   Thrown e').
Proof.
  intros Hfail. cbn [fetch_loop].
  rewrite (loop_body_failed this year (net k) s e e' status statusText json);
    [done|].
  destruct Hfail as [H|H]; [by left | by right; left].
Qed.


(** ** generateCSV *)

Lemma sumZ_abs_nonneg (f : Z -> Z) (l : list Z) :
  0 <= sumZ (map (fun y => Z.abs (f y)) l).
Proof. induction l as [|y l IH]; [done|]. cbn [map]. rewrite sumZ_cons. lia. Qed.

(** A running float sum whose terms stay together within 2^53 is the sum of
    the integers. *)
Lemma fold_left_spend (f : Z -> Z) (l : list Z) (a : Z) :
  Z.abs a + sumZ (map (fun y => Z.abs (f y)) l) <= 2 ^ 53 ->
  fold_left (fun total y => JS.add total (f y)) l a = a + sumZ (map f l).
Proof.
  revert a. induction l as [|y l IH]; intros a Hsafe.
  - cbn. lia.
  - cbn [map fold_left] in *. rewrite !sumZ_cons in *.
    pose proof (sumZ_abs_nonneg f l).
    rewrite add_safe by (unfold JS.safe; lia).
    rewrite IH by lia. lia.
Qed.

Lemma creatorsArray_perm cd years years' :
  totals_safe cd years ->
  Permutation years years' -> creatorsArray cd years' = creatorsArray cd years.
Proof.
  intros Hsafe Hp. unfold creatorsArray, totals_safe in *.
  apply map_ext_in. intros c Hc. f_equal.
  rewrite List.Forall_forall in Hsafe. specialize (Hsafe c Hc).
  assert (Hsafe' : sumZ (map (fun year => Z.abs (spend_in c year)) years') <= 2 ^ 53).
  { rewrite <- (sumZ_perm _ _ (Permutation_map (fun year => Z.abs (spend_in c year)) Hp)).
    exact Hsafe. }
  rewrite !fold_left_spend by (cbn; lia). f_equal. symmetry.
  apply sumZ_perm. by apply Permutation_map.
Qed.

(** Two descending arrangements of the same numbers coincide. *)
Lemma descending_unique (l1 l2 : list Z) :
  StronglySorted (fun a b => b <= a) l1 ->
  StronglySorted (fun a b => b <= a) l2 ->
  Permutation l1 l2 -> l1 = l2.
Proof.
  intros H1. revert l2.
  induction H1 as [|a l1 Hl1 IH Ha]; intros l2 H2 Hp.
  - by apply Permutation_nil in Hp.
  - destruct H2 as [|b l2 Hl2 Hb].
    + symmetry in Hp. by apply Permutation_nil in Hp.
    + assert (a = b) as <-.
      { assert (Hin1 : In a (b :: l2))
          by (eapply Permutation_in; [exact Hp | by left]).
        assert (Hin2 : In b (a :: l1))
          by (eapply Permutation_in; [symmetry; exact Hp | by left]).
        rewrite List.Forall_forall in Ha, Hb.
        destruct Hin1 as [->|Hin1]; [done|].
        destruct Hin2 as [->|Hin2]; [done|].
        specialize (Ha _ Hin2). specialize (Hb _ Hin1). lia. }
      f_equal. apply IH; [done|]. by apply Permutation_cons_inv in Hp.
Qed.

Lemma sortedYears_perm years years' :
  Permutation years years' -> sortedYears years' = sortedYears years.
Proof.
  intros Hp. unfold sortedYears.
  apply descending_unique; try apply (Array_sort_sorted (fun y : Z => y)).
  rewrite !(Array_sort_perm (fun y : Z => y)). by symmetry.
Qed.

Lemma descending_strict (l : list Z) :
  List.NoDup l ->
  StronglySorted (fun a b => b <= a) l -> StronglySorted (fun a b => b < a) l.
Proof.
  intros Hnd Hs. induction Hs as [|a l Hl IH Ha]; [constructor|].
  apply List.NoDup_cons_iff in Hnd as [Hnotin Hnd].
  constructor; [by apply IH|].
  rewrite List.Forall_forall in *. intros b Hb.
  specialize (Ha b Hb). assert (b <> a) by (intros ->; done). lia.
Qed.

(** ** Claims about the Reporter *)

(** C4.  When the currency formatter cannot be built for the code, no error
    leaves the function: the result is the code, a space and the amount
    divided by 100 with two decimals, for every amount below 100 * 2^46 in
    magnitude.  In particular 250 in a currency ZZ gives "ZZ 2.50". *)
Theorem formatCurrency_unknown_code
    (intl : Intl) (amountCents : Z) (currency : string) :
  intl currency = None ->
  Z.abs amountCents < 100 * 2 ^ 46 ->
  formatCurrency intl amountCents currency =
    currency +:+ " " +:+ two_decimals amountCents ∧
  (currency = "ZZ" -> formatCurrency intl 250 currency = "ZZ 2.50").
Proof.
  intros Hunknown Hrange. unfold formatCurrency. rewrite Hunknown. split.
  - by rewrite toFixed_cents.
  - by intros ->.
Qed.


(** C7.  The year columns of the header and of every data row
    follow the requested years sorted in descending order, whatever the order
    in which they were supplied; the order is strict when no year is requested
    twice.  A year for which the creator has no recorded spend shows the
    formatted amount 0.  The whole table is the same for every order of the
    years when the yearly amounts of each creator stay together within
    2^53. *)
Theorem year_columns_descending
    (intl : Intl) (creatorData : list (string * creator)) (years : list Z) :
  let sy := sortedYears years in
  drop 4 (headers years) =
    map (fun year => "Total Spend " +:+ JS.Number_toString year) sy ∧
  (forall ct, drop 4 (csv_row intl years ct) = map (year_cell intl (ct_creator ct)) sy) ∧
  Permutation sy years ∧
  StronglySorted (fun a b => b <= a) sy ∧
  (List.NoDup years -> StronglySorted (fun a b => b < a) sy) ∧
  (forall years', Permutation years years' ->
     sortedYears years' = sy ∧
     headers years' = headers years ∧
     (forall ct, drop 4 (csv_row intl years' ct) = drop 4 (csv_row intl years ct)) ∧
     (totals_safe creatorData years ->
      csv_rows intl creatorData years' = csv_rows intl creatorData years)) ∧
  (forall c year, yearlySpends c !! JS.Number_toString year = None ->
     year_cell intl c year = formatCurrency intl 0 (cr_currency c)).
Proof.
  intros sy. unfold sy.
  split; [done|]. split; [done|].
  split; [apply (Array_sort_perm (fun y : Z => y))|].
  split; [apply (Array_sort_sorted (fun y : Z => y))|].
  split; [|split].
  - intros Hnd. apply descending_strict.
    + eapply Permutation_NoDup; [|exact Hnd].
      symmetry. apply (Array_sort_perm (fun y : Z => y)).
    + apply (Array_sort_sorted (fun y : Z => y)).
  - intros years' Hp. split; [by apply sortedYears_perm|].
    split; [|split].
    + unfold headers. by rewrite (sortedYears_perm _ _ Hp).
    + intros ct. unfold csv_row. by rewrite (sortedYears_perm _ _ Hp).
    + intros Hsafe. unfold csv_rows, headers, sortedCreators, csv_row.
      by rewrite (sortedYears_perm _ _ Hp), (creatorsArray_perm _ _ _ Hsafe Hp).
  - intros c year Habs. unfold year_cell, spend_in. by rewrite Habs.
Qed.

(** ** Concrete runs *)

Example format_usd : formatCurrency Sample.intl 150 "USD" = "$1.50".
Proof. reflexivity. Qed.

Example format_jpy : formatCurrency Sample.intl 1500 "JPY" = "¥1,500".
Proof. reflexivity. Qed.

Example format_kwd :
  formatCurrency Sample.intl 1234567 "KWD" = "KWD" +:+ Sample.nbsp +:+ "1,234.567".
Proof. reflexivity. Qed.

Example format_rejected : formatCurrency Sample.intl 250 "ZZ" = "ZZ 2.50".
Proof. reflexivity. Qed.

Example add_rounds :
  JS.add 9007199254740992 1 = 9007199254740992 ∧
  JS.add 9007199254740991 2 = 9007199254740992 ∧
  JS.add 72057594037927936 100 = 72057594037928032.
Proof. repeat split. Qed.

(** One creator billed 1000 in 2022 and 2000 in 2023, in USD. *)
Example end_to_end :
  let creatorData :=
    processBillsData
      [("2022", {| bills := [Sample.bill "x" (Some 1000) None "USD" (Some "c1")];
                   campaigns := Sample.two_campaigns |});
       ("2023", {| bills := [Sample.bill "y" (Some 2000) None "USD" (Some "c1")];
                   campaigns := Sample.two_campaigns |})] in
  csv_rows Sample.intl creatorData [2022; 2023] =
  [["Creator"; "Currency"; "URL"; "Total Spend"; "Total Spend 2023"; "Total Spend 2022"];
   ["Alice"; "USD"; "https://www.patreon.com/alice"; "$30.00"; "$20.00"; "$10.00"]].
Proof. vm_compute. reflexivity. Qed.

(** *** C1: an exact multiple of the page size *)



(** *** C5: what the rejection carries *)

(** Year 2023 failing at offset 0 and year 2022 failing at offset 100 reject
    with one and the same value; year and offset appear in the diagnostic line
    only. *)
Lemma thrown_error_lacks_context :
  let e := http_error 500 "Internal Server Error" in
  let run1 := fetchYearData constructor Runs.failing_first 5 2023 in
  let run2 := fetchYearData constructor Runs.failing_second 5 2022 in
  e = {| err_name := "Error"; err_message := "HTTP 500: Internal Server Error" |} ∧
  run1 = ([EvFetch (buildApiUrl constructor 2023 0); EvConsoleError 2023 0 e], Thrown e) ∧
  run2.2 = Thrown e ∧
  List.last run2.1 (EvDelay 0) = EvConsoleError 2022 100 e ∧
  run1.2 = run2.2.
Proof. cbv zeta. repeat split; vm_compute; reflexivity. Qed.

Lemma fetch_failure_aborts_year_witness :
  let u := buildApiUrl constructor 2022 (offset initial_state) in
  let e' := http_error 500 "Internal Server Error" in
  Runs.failing_first 0%nat u = Runs.server_error ∧
  fetch_loop constructor Runs.failing_first 2022 (S 4) 0 initial_state =
  ([EvFetch u; EvConsoleError 2022 (offset initial_state) e'], Thrown e').
Proof.
  cbv zeta. split; [reflexivity|].
  apply (fetch_failure_aborts_year constructor Runs.failing_first 2022 4 0
           initial_state {| err_name := EmptyString; err_message := EmptyString |}
           (http_error 500 "Internal Server Error") 500 "Internal Server Error"
           (inl {| err_name := EmptyString; err_message := EmptyString |})).
  right. split; reflexivity.
Defined.

(** *** C10: a page of 100 records with 99 bills *)


(** *** The Aggregator on two years of bills *)

Lemma processBillsData_skips_unresolved_witness :
  let cs := Sample.two_campaigns in
  let billsByYear := [] ++ [("2022", {| bills := [Runs.b1] ++ Runs.orphan :: [Runs.b3];
                                         campaigns := cs |})] in
  let without := [] ++ [("2022", {| bills := [Runs.b1] ++ [Runs.b3]; campaigns := cs |})] in
  unresolved cs Runs.orphan ∧
  no_empty_reference billsByYear ∧
  in_safe_range billsByYear ∧
  processBillsData billsByYear = processBillsData without ∧
  included billsByYear = included without ∧
  grand_total (processBillsData billsByYear) = resolvable_amount billsByYear ∧
  resolvable_amount billsByYear = 800.
Proof.
  cbv zeta.
  assert (Hu : unresolved Sample.two_campaigns Runs.orphan) by reflexivity.
  assert (Hne : no_empty_reference
                  ([] ++ [("2022", {| bills := [Runs.b1] ++ Runs.orphan :: [Runs.b3];
                                      campaigns := Sample.two_campaigns |})])).
  { repeat (apply List.Forall_cons; [discriminate|]). apply List.Forall_nil. }
  assert (Hsafe : in_safe_range
                    ([] ++ [("2022", {| bills := [Runs.b1] ++ Runs.orphan :: [Runs.b3];
                                        campaigns := Sample.two_campaigns |})])).
  { vm_compute. discriminate. }
  split; [exact Hu|]. split; [exact Hne|]. split; [exact Hsafe|].
  destruct (processBillsData_skips_unresolved [] [] "2022" [Runs.b1] [Runs.b3]
              Runs.orphan Sample.two_campaigns (or_introl Hu)) as (H1 & H2 & H3).
  split; [exact H1|]. split; [exact H2|]. split; [exact (H3 Hne Hsafe)|]. reflexivity.
Defined.

(** A bill that refers to the campaign filed under the empty id is resolvable
    and yet skipped; and two resolvable bills of 2^53 and 1 leave a total of
    2^53.  Either way the totals do not add up to the amounts of the
    resolvable bills. *)
Lemma resolvable_bills_not_all_counted :
  (let billsByYear :=
     [("2023", {| bills := [Runs.to_nameless]; campaigns := Runs.campaigns_nameless |})] in
   campaign_ref Runs.to_nameless = Some EmptyString ∧
   Runs.campaigns_nameless !! EmptyString = Some Runs.nameless ∧
   resolvable Runs.campaigns_nameless Runs.to_nameless = true ∧
   processBillsData billsByYear = [] ∧
   resolvable_amount billsByYear = 100 ∧
   grand_total (processBillsData billsByYear) = 0) ∧
  (let billsByYear :=
     [("2023", {| bills := [Runs.huge; Runs.one]; campaigns := Sample.two_campaigns |})] in
   no_empty_reference billsByYear ∧
   resolvable_amount billsByYear = 9007199254740993 ∧
   grand_total (processBillsData billsByYear) = 9007199254740992).
Proof.
  cbv zeta. split.
  - repeat split; vm_compute; reflexivity.
  - split; [|split; vm_compute; reflexivity].
    repeat (apply List.Forall_cons; [discriminate|]). apply List.Forall_nil.
Qed.

Lemma processBillsData_order_independent_witness :
  let cs := Sample.two_campaigns in
  let billsByYear :=
    [] ++ ("2022", {| bills := [Runs.b1; Runs.b2; Runs.b3]; campaigns := cs |}) :: [] in
  let shuffled :=
    [] ++ ("2022", {| bills := [Runs.b3; Runs.b2; Runs.b1]; campaigns := cs |}) :: [] in
  Permutation [Runs.b1; Runs.b2; Runs.b3] [Runs.b3; Runs.b2; Runs.b1] ∧
  in_safe_range billsByYear ∧
  total_of (processBillsData billsByYear) "Alice" "2022" =
    total_of (processBillsData shuffled) "Alice" "2022" ∧
  yearlySpends <$> Map_get "Alice" (processBillsData billsByYear) =
    yearlySpends <$> Map_get "Alice" (processBillsData shuffled).
Proof.
  cbv zeta.
  assert (Hp : Permutation [Runs.b1; Runs.b2; Runs.b3] [Runs.b3; Runs.b2; Runs.b1]).
  { apply perm_trans with [Runs.b2; Runs.b1; Runs.b3]; [apply perm_swap|].
    apply perm_trans with [Runs.b2; Runs.b3; Runs.b1]; [apply perm_skip, perm_swap|].
    apply perm_swap. }
  assert (Hsafe : in_safe_range
                    ([] ++ ("2022", {| bills := [Runs.b1; Runs.b2; Runs.b3];
                                       campaigns := Sample.two_campaigns |}) :: [])).
  { vm_compute. discriminate. }
  split; [exact Hp|]. split; [exact Hsafe|].
  exact (processBillsData_order_independent [] [] "2022" _ _ Sample.two_campaigns
           "Alice" "2022" Hp Hsafe).
Defined.

(** Bills of 2^53, 1 and 1 for one creator and year: taken in this order the
    total is 2^53, with the large bill last it is 2^53 + 2. *)
Lemma large_amounts_depend_on_order :
  let cs := Sample.two_campaigns in
  let billsByYear := [("2023", {| bills := [Runs.huge; Runs.one; Runs.another];
                                  campaigns := cs |})] in
  let shuffled := [("2023", {| bills := [Runs.one; Runs.another; Runs.huge];
                               campaigns := cs |})] in
  Permutation [Runs.huge; Runs.one; Runs.another] [Runs.one; Runs.another; Runs.huge] ∧
  total_of (processBillsData billsByYear) "Alice" "2023" = Some 9007199254740992 ∧
  total_of (processBillsData shuffled) "Alice" "2023" = Some 9007199254740994 ∧
  total_of (processBillsData billsByYear) "Alice" "2023" <>
    total_of (processBillsData shuffled) "Alice" "2023".
Proof.
  cbv zeta.
  assert (H1 : total_of (processBillsData
                 [("2023", {| bills := [Runs.huge; Runs.one; Runs.another];
                              campaigns := Sample.two_campaigns |})]) "Alice" "2023" =
               Some 9007199254740992) by (vm_compute; reflexivity).
  assert (H2 : total_of (processBillsData
                 [("2023", {| bills := [Runs.one; Runs.another; Runs.huge];
                              campaigns := Sample.two_campaigns |})]) "Alice" "2023" =
               Some 9007199254740994) by (vm_compute; reflexivity).
  split.
  { apply perm_trans with [Runs.one; Runs.huge; Runs.another];
      [apply perm_swap | apply perm_skip, perm_swap]. }
  split; [exact H1|]. split; [exact H2|].
  rewrite H1, H2. discriminate.
Qed.

(** A bill of 100 without a tax amount adds exactly 100. *)
Lemma combined_amount_base_plus_tax_witness :
  amount_cents (item_attributes Runs.b1) = Some 100 ∧
  vat_charge_amount_cents (item_attributes Runs.b1) = None ∧
  resolve Sample.two_campaigns Runs.b1 = Some Sample.alice ∧
  JS.safe (combined_amount Runs.b1) ∧
  amountCents_of Runs.b1 = 100 ∧
  total_of (process_bill "2022" Sample.two_campaigns [] Runs.b1) "Alice" "2022" = Some 100.
Proof.
  assert (Hsafe : JS.safe (combined_amount Runs.b1)) by (vm_compute; discriminate).
  split; [reflexivity|]. split; [reflexivity|]. split; [reflexivity|].
  split; [exact Hsafe|].
  apply (combined_amount_base_plus_tax "2022" Sample.two_campaigns [] Runs.b1
           Sample.alice 100 eq_refl eq_refl Hsafe).
  vm_compute. discriminate.
Defined.

(** A bill of 2^53 - 1 with a tax amount of 2 has the combined amount 2^53,
    not 2^53 + 1; and a bill of 1 adds nothing to a total of 2^53. *)
Lemma large_amounts_are_rounded :
  let cs := Sample.two_campaigns in
  amount_cents (item_attributes Runs.taxed) = Some 9007199254740991 ∧
  vat_charge_amount_cents (item_attributes Runs.taxed) = Some 2 ∧
  resolve cs Runs.taxed = Some Sample.alice ∧
  amountCents_of Runs.taxed = 9007199254740992 ∧
  amountCents_of Runs.taxed <> 9007199254740991 + 2 ∧
  let cd := process_bill "2023" cs [] Runs.huge in
  resolve cs Runs.one = Some Sample.alice ∧
  amountCents_of Runs.one = 1 ∧
  total_of cd "Alice" "2023" = Some 9007199254740992 ∧
  total_of (process_bill "2023" cs cd Runs.one) "Alice" "2023" = Some 9007199254740992.
Proof.
  cbv zeta. repeat split; try (vm_compute; reflexivity).
  vm_compute. discriminate.
Qed.

(** Alice is first billed in USD through a campaign with one URL, later in EUR
    through a campaign with another: the first pair stays. *)
Lemma first_seen_currency_and_url_win_witness :
  let before := [("2022", Sample.bob, Runs.b3)] in
  let t := ("2022", Sample.alice, Runs.b1) in
  let after := [("2023", Runs.alice_2023, Runs.b2)] in
  included Runs.two_years = before ++ t :: after ∧
  attr_currency (item_attributes Runs.b2) <> attr_currency (item_attributes Runs.b1) ∧
  exists c, Map_get "Alice" (processBillsData Runs.two_years) = Some c ∧
            cr_currency c = "USD" ∧
            cr_url c = Some "https://www.patreon.com/alice".
Proof.
  cbv zeta. split; [reflexivity|]. split; [discriminate|].
  apply (first_seen_currency_and_url_win Runs.two_years
           [("2022", Sample.bob, Runs.b3)]
           [("2023", Runs.alice_2023, Runs.b2)]
           ("2022", Sample.alice, Runs.b1)).
  - reflexivity.
  - constructor; [discriminate | constructor].
Defined.

(** *** The Reporter *)

Lemma formatCurrency_unknown_code_witness :
  Sample.intl "ZZ" = None ∧
  Z.abs 250 < 100 * 2 ^ 46 ∧
  formatCurrency Sample.intl 250 "ZZ" = "ZZ" +:+ " " +:+ two_decimals 250 ∧
  formatCurrency Sample.intl 250 "ZZ" = "ZZ 2.50".
Proof.
  assert (Hrange : Z.abs 250 < 100 * 2 ^ 46) by reflexivity.
  split; [reflexivity|]. split; [exact Hrange|].
  destruct (formatCurrency_unknown_code Sample.intl 250 "ZZ" eq_refl Hrange) as [H1 H2].
  split; [exact H1 | exact (H2 eq_refl)].
Defined.

(** The code ZZZ is three letters: the formatter is built, and the amount is
    written by it, with a no-break space after the code.  And in the
    fallback an amount of 9007199254740907 is divided as a float, which
    prints as .06 where the amount ends in 07. *)
Lemma well_formed_code_is_formatted :
  Sample.well_formed "ZZZ" = true ∧
  Sample.intl "ZZZ" <> None ∧
  formatCurrency Sample.intl 250 "ZZZ" = "ZZZ" +:+ Sample.nbsp +:+ "2.50" ∧
  formatCurrency Sample.intl 250 "ZZZ" <> "ZZZ 2.50" ∧
  Sample.intl "ZZ" = None ∧
  formatCurrency Sample.intl 9007199254740907 "ZZ" = "ZZ 90071992547409.06" ∧
  "ZZ" +:+ " " +:+ two_decimals 9007199254740907 = "ZZ 90071992547409.07".
Proof.
  split; [reflexivity|]. split; [discriminate|].
  split; [vm_compute; reflexivity|]. split; [vm_compute; discriminate|].
  split; [reflexivity|]. split; vm_compute; reflexivity.
Qed.

(** The year 2023 requested twice: two equal columns, so the order of the
    year columns is not strict. *)
Lemma repeated_year_not_strict :
  sortedYears [2023; 2023] = [2023; 2023] ∧
  drop 4 (headers [2023; 2023]) = ["Total Spend 2023"; "Total Spend 2023"] ∧
  ~ StronglySorted (fun a b => b < a) (sortedYears [2023; 2023]).
Proof.
  split; [reflexivity|]. split; [reflexivity|].
  change (sortedYears [2023; 2023]) with [2023; 2023].
  intros Hs. apply StronglySorted_inv in Hs as [_ Hall].
  apply Forall_inv in Hall. lia.
Qed.

Lemma year_columns_descending_witness :
  let creatorData := processBillsData Runs.two_years in
  List.NoDup [2022; 2024; 2023] ∧
  Permutation [2022; 2024; 2023] [2023; 2022; 2024] ∧
  sortedYears [2022; 2024; 2023] = [2024; 2023; 2022] ∧
  StronglySorted (fun a b => b < a) (sortedYears [2022; 2024; 2023]) ∧
  totals_safe creatorData [2022; 2024; 2023] ∧
  headers [2023; 2022; 2024] = headers [2022; 2024; 2023] ∧
  csv_rows Sample.intl creatorData [2023; 2022; 2024] =
    csv_rows Sample.intl creatorData [2022; 2024; 2023] ∧
  year_cell Sample.intl {| cr_name := "Bob"; yearlySpends := ∅;
                           cr_currency := "USD"; cr_url := None |} 2024 = "$0.00".
Proof.
  cbv zeta.
  assert (Hsafe : totals_safe (processBillsData Runs.two_years) [2022; 2024; 2023]).
  { repeat (apply List.Forall_cons; [vm_compute; discriminate|]). apply List.Forall_nil. }
  assert (Hnd : List.NoDup [2022; 2024; 2023]).
  { repeat constructor; simpl; intuition lia. }
  assert (Hp : Permutation [2022; 2024; 2023] [2023; 2022; 2024]).
  { apply perm_trans with [2022; 2023; 2024]; [apply perm_skip, perm_swap|].
    apply perm_swap. }
  destruct (year_columns_descending Sample.intl (processBillsData Runs.two_years)
              [2022; 2024; 2023]) as (_ & _ & _ & _ & Hstrict & Hperm & Habsent).
  split; [exact Hnd|]. split; [exact Hp|]. split; [reflexivity|].
  split; [exact (Hstrict Hnd)|].
  destruct (Hperm _ Hp) as (_ & Hhead & _ & Hrows).
  split; [exact Hsafe|]. split; [exact Hhead|]. split; [exact (Hrows Hsafe)|].
  exact (Habsent {| cr_name := "Bob"; yearlySpends := ∅;
                    cr_currency := "USD"; cr_url := None |} 2024 eq_refl).
Defined.

(** The total of a creator with 2^53 in one year and 1 in each of two others
    depends on the order in which the years are supplied, and so does the
    Total Spend field of its row. *)
Example total_spend_depends_on_year_order :
  map totalAmountCents (creatorsArray [("Alice", Runs.uneven)] [1; 2; 3]) =
    [9007199254740992] ∧
  map totalAmountCents (creatorsArray [("Alice", Runs.uneven)] [2; 3; 1]) =
    [9007199254740994] ∧
  map (fun row => row !! 3%nat) (csv_rows Sample.intl [("Alice", Runs.uneven)] [1; 2; 3]) =
    [Some "Total Spend"; Some "$90,071,992,547,409.92"] ∧
  map (fun row => row !! 3%nat) (csv_rows Sample.intl [("Alice", Runs.uneven)] [2; 3; 1]) =
    [Some "Total Spend"; Some "$90,071,992,547,409.94"] ∧
  csv_rows Sample.intl [("Alice", Runs.uneven)] [2; 3; 1] <>
    csv_rows Sample.intl [("Alice", Runs.uneven)] [1; 2; 3].
Proof. repeat split; vm_compute; (reflexivity || discriminate). Qed.

Example toFixed_large :
  JS.Number_toFixed (inject_Z (2 ^ 70)) 2 = "1.1805916207174113e+21".
Proof. vm_compute. reflexivity. Qed.

Example toFixed_250 : JS.Number_toFixed (250 # 100) 2 = "2.50".
Proof. reflexivity. Qed.

Example toFixed_negative : JS.Number_toFixed (inject_Z (-1234) / inject_Z 100) 2 = "-12.34".
Proof. reflexivity. Qed.

Example sort_totals :
  JS.Array_sort (descending (fun t : Z => t)) [500; 1500; 300] = [1500; 500; 300].
Proof. reflexivity. Qed.

(** * Further properties of the exporter *)

(** ** The aggregate built by processBillsData *)

Section KeysFacts.
Context {V : Type}.
Implicit Types (m : list (string * V)) (k : string) (v : V).

Lemma Map_get_None_keys k m : Map_get k m = None <-> k ∉ map fst m.
Proof.
  induction m as [|[k' v'] m IH]; simpl.
  - split; [intros _; apply not_elem_of_nil | done].
  - rewrite not_elem_of_cons.
    destruct (bool_decide_reflect (k' = k)) as [->|Hk].
    + split; [done | intros [? _]; done].
    + rewrite IH. split; [intros ?; split; [congruence | done] | tauto].
Qed.

Lemma Map_set_keys k v m :
  map fst (Map_set k v m) =
  if Map_has k m then map fst m else map fst m ++ [k].
Proof.
  unfold Map_has. induction m as [|[k' v'] m IH]; simpl; [done|].
  destruct (bool_decide_reflect (k' = k)) as [->|Hk]; simpl; [done|].
  rewrite IH. by destruct (Map_get k m).
Qed.

Lemma Map_has_keys k m : Map_has k m = bool_decide (k ∈ map fst m).
Proof.
  unfold Map_has. destruct (Map_get k m) eqn:Hg; symmetry.
  - apply bool_decide_eq_true_2.
    destruct (decide (k ∈ map fst m)) as [|Hn]; [done|].
    apply Map_get_None_keys in Hn. congruence.
  - apply bool_decide_eq_false_2. by apply Map_get_None_keys.
Qed.

Lemma Map_get_elem k v m : Map_get k m = Some v -> (k, v) ∈ m.
Proof.
  induction m as [|[k' v'] m IH]; simpl; [done|].
  destruct (bool_decide_reflect (k' = k)) as [->|Hk].
  - intros [= ->]. apply list_elem_of_here.
  - intros H. apply list_elem_of_further. by apply IH.
Qed.

Lemma Map_set_elem k v m e :
  e ∈ Map_set k v m -> e = (k, v) ∨ e ∈ m.
Proof.
  induction m as [|[k' v'] m IH]; simpl.
  - intros ->%list_elem_of_singleton. by left.
  - destruct (bool_decide_reflect (k' = k)) as [->|Hk].
    + intros [->|H]%elem_of_cons; [by left|]. right. by apply list_elem_of_further.
    + intros [->|H]%elem_of_cons; [right; apply list_elem_of_here|].
      destruct (IH H) as [->|H']; [by left|]. right. by apply list_elem_of_further.
Qed.
End KeysFacts.

Lemma step_keys cd t :
  map fst (step cd t) =
  if bool_decide (name_of t ∈ map fst cd) then map fst cd
  else map fst cd ++ [name_of t].
Proof.
  unfold step, accumulate. fold (name_of t).
  rewrite (Map_has_keys (name_of t) cd).
  destruct (bool_decide_reflect (name_of t ∈ map fst cd)) as [Hin|Hin].
  - destruct (Map_get (name_of t) cd) as [c|] eqn:Hg.
    + rewrite Map_set_keys, Map_has_keys. by rewrite bool_decide_eq_true_2.
    + done.
  - rewrite Map_get_set, bool_decide_eq_true_2 by done.
    rewrite Map_set_keys, Map_has_keys, Map_set_keys, Map_has_keys.
    rewrite (bool_decide_eq_false_2 _ Hin).
    rewrite bool_decide_eq_true_2; [done|].
    rewrite elem_of_app, list_elem_of_singleton. by right.
Qed.

Lemma steps_keys items cd :
  map fst (fold_left step items cd) =
  fold_left (fun seen n => if bool_decide (n ∈ seen) then seen else seen ++ [n])
            (map name_of items) (map fst cd).
Proof.
  revert cd. induction items as [|t items IH]; intros cd; [done|].
  cbn [fold_left map]. by rewrite IH, step_keys.
Qed.

Lemma first_seen_fold_NoDup (names seen : list string) :
  List.NoDup seen ->
  List.NoDup (fold_left (fun seen n => if bool_decide (n ∈ seen) then seen else seen ++ [n])
                        names seen).
Proof.
  revert seen. induction names as [|n names IH]; intros seen Hnd; [done|].
  cbn [fold_left]. apply IH.
  destruct (bool_decide_reflect (n ∈ seen)) as [Hin|Hin]; [done|].
  apply NoDup_ListNoDup, NoDup_app. split; [by apply NoDup_ListNoDup|].
  split; [|apply NoDup_singleton].
  intros x Hx ->%list_elem_of_singleton. done.
Qed.

Lemma first_seen_fold_elem (names seen : list string) (x : string) :
  x ∈ fold_left (fun seen n => if bool_decide (n ∈ seen) then seen else seen ++ [n])
                names seen <->
  x ∈ seen ∨ x ∈ names.
Proof.
  revert seen. induction names as [|n names IH]; intros seen; cbn [fold_left].
  - rewrite elem_of_nil. tauto.
  - rewrite IH, elem_of_cons.
    destruct (bool_decide_reflect (n ∈ seen)) as [Hin|Hin].
    + split; [tauto|]. intros [?|[->|?]]; tauto.
    + rewrite elem_of_app, list_elem_of_singleton. tauto.
Qed.

(** The stored name of every entry is its key, and the years of its totals
    are year keys of the input. *)
Lemma steps_entries items cd (P : string -> Prop) :
  Forall (fun e => cr_name (snd e) = fst e ∧ forall y, y ∈ year_keys (snd e) -> P y) cd ->
  Forall (fun t => P (year_of t)) items ->
  Forall (fun e => cr_name (snd e) = fst e ∧ forall y, y ∈ year_keys (snd e) -> P y)
         (fold_left step items cd).
Proof.
  intros Hcd Hitems. revert cd Hcd.
  induction Hitems as [|t items Ht _ IH]; intros cd Hcd; [done|].
  cbn [fold_left]. apply IH. clear IH.
  assert (Hset : forall k c m,
    Forall (fun e => cr_name (snd e) = fst e ∧ forall y, y ∈ year_keys (snd e) -> P y) m ->
    cr_name c = k -> (forall y, y ∈ year_keys c -> P y) ->
    Forall (fun e => cr_name (snd e) = fst e ∧ forall y, y ∈ year_keys (snd e) -> P y)
           (Map_set k c m)).
  { intros k c m Hm Hk Hy. rewrite List.Forall_forall. intros e He.
    apply list_elem_of_In, Map_set_elem in He as [->|He]; [done|].
    rewrite List.Forall_forall in Hm. apply Hm. by apply list_elem_of_In. }
  unfold step, accumulate. fold (name_of t). fold (year_of t).
  set (fresh := {| cr_name := name_of t; yearlySpends := ∅;
                   cr_currency := attr_currency (item_attributes t.2);
                   cr_url := attr_url (item_attributes t.1.2) |}).
  assert (Hcd' : Forall
            (fun e => cr_name (snd e) = fst e ∧ forall y, y ∈ year_keys (snd e) -> P y)
            (if Map_has (name_of t) cd then cd else Map_set (name_of t) fresh cd)).
  { destruct (Map_has (name_of t) cd); [done|].
    apply Hset; [done | done |]. unfold year_keys. cbn. intros y Hy.
    by apply not_elem_of_empty in Hy. }
  destruct (Map_get (name_of t) _) as [c|] eqn:Hg; [|done].
  apply Map_get_elem, list_elem_of_In in Hg.
  rewrite List.Forall_forall in Hcd'. destruct (Hcd' _ Hg) as [Hname Hyears].
  rewrite <- List.Forall_forall in Hcd'.
  apply Hset; [done | done |].
  unfold year_keys, set_yearlySpend. cbn [yearlySpends]. intros y.
  rewrite dom_insert_L, elem_of_union, elem_of_singleton.
  intros [->|Hy]; [done|]. by apply Hyears.
Qed.

Lemma included_year_keys billsByYear :
  Forall (fun t => year_of t ∈ map fst billsByYear) (included billsByYear).
Proof.
  induction billsByYear as [|[y yd] l IH]; [constructor|].
  rewrite included_cons. apply Forall_app. split.
  - unfold included_of. cbn [fst snd].
    induction (bills yd) as [|b bs IHb]; cbn [omap list_omap]; [constructor|].
    destruct (resolve (campaigns yd) b); [|done].
    constructor; [|done]. cbn. apply list_elem_of_here.
  - eapply Forall_impl; [exact IH|]. cbn. intros t Ht.
    by apply list_elem_of_further.
Qed.

(** X1.  When the amounts of all bills stay together within 2^53, the total
    stored for a creator name and a year key is the sum of the combined
    amounts of the included bills of that name and year; there is no entry
    for the pair when there is no such bill. *)
Theorem total_is_sum_of_matching_bills
    (billsByYear : list (string * year_data)) (n y : string) :
  in_safe_range billsByYear ->
  total_of (processBillsData billsByYear) n y =
  match List.filter (concerns n y) (included billsByYear) with
  | [] => None
  | ms => Some (sumZ (map exact_of ms))
  end.
Proof. intros Hsafe. by destruct (processBillsData_safe _ Hsafe) as (_ & _ & ->). Qed.

(** X2.  The aggregate has one entry per creator name, in the order in which
    the names first occur among the included bills; the name stored in an
    entry is its key, and its totals are filed under year keys of the
    input. *)
Theorem one_entry_per_creator_in_first_seen_order
    (billsByYear : list (string * year_data)) :
  let creatorData := processBillsData billsByYear in
  map fst creatorData = first_seen (map name_of (included billsByYear)) ∧
  List.NoDup (map fst creatorData) ∧
  (forall n, n ∈ map fst creatorData <-> n ∈ map name_of (included billsByYear)) ∧
  Forall (fun e => cr_name (snd e) = fst e ∧
                   forall y, y ∈ year_keys (snd e) -> y ∈ map fst billsByYear)
         creatorData.
Proof.
  cbv zeta. rewrite processBillsData_included, steps_keys. cbn [map].
  split; [done|]. split; [apply first_seen_fold_NoDup; constructor|].
  split.
  - intros n. rewrite first_seen_fold_elem, elem_of_nil. tauto.
  - apply steps_entries; [constructor | apply included_year_keys].
Qed.

(** ** Runs of fetchYearData on an arbitrary network *)

Section RunFacts.
Variables (this : PatreonDataExporter) (net : network) (year : Z).

Local Abbreviation ps := (pageSize this).

(** The three ways through the loop body. *)
Lemma loop_body_cases fetch s :
  let u := buildApiUrl this year (offset s) in
  (exists e,
     loop_body this year fetch s =
     ([EvFetch u; EvConsoleError year (offset s) e], Throw e)) ∨
  (exists d status statusText tp,
     fetch u = Resolved true status statusText (inr d) ∧
     bill_count d < ps ∧
     loop_body this year fetch s =
     ([EvFetch u; EvProgress year (currentPage s + 1) tp (bill_count d)],
      Break {| allBills := allBills s ++ List.filter is_bill (doc_data d);
               allCampaigns := add_campaigns (allCampaigns s) d;
               offset := offset s; totalPages := tp;
               currentPage := currentPage s + 1 |})) ∨
  (exists d status statusText tp,
     fetch u = Resolved true status statusText (inr d) ∧
     ps <= bill_count d ∧
     loop_body this year fetch s =
     ([EvFetch u; EvProgress year (currentPage s + 1) tp (bill_count d);
       EvDelay (delay this)],
      Continue {| allBills := allBills s ++ List.filter is_bill (doc_data d);
                  allCampaigns := add_campaigns (allCampaigns s) d;
                  offset := offset s + ps; totalPages := tp;
                  currentPage := currentPage s + 1 |})).
Proof.
  cbv zeta. unfold loop_body.
  destruct (fetch _) as [e|[] status statusText [e|d]]; cbn [negb];
    try (left; eexists; reflexivity).
  right. fold (bill_count d).
  destruct (Z.ltb_spec (bill_count d) ps) as [Hlt|Hge].
  - left. exists d, status, statusText. eexists. split; [done|]. split; [done|].
    reflexivity.
  - right. exists d, status, statusText. eexists. split; [done|]. split; [done|].
    reflexivity.
Qed.

Lemma delays_app evs evs' : delays (evs ++ evs') = delays evs ++ delays evs'.
Proof. apply omap_app. Qed.

Lemma progress_pages_app evs evs' :
  progress_pages (evs ++ evs') = progress_pages evs ++ progress_pages evs'.
Proof. apply omap_app. Qed.

Lemma progress_counts_app evs evs' :
  progress_counts (evs ++ evs') = progress_counts evs ++ progress_counts evs'.
Proof. apply omap_app. Qed.

Lemma finished_loop_shape fuel k s evs o :
  fetch_loop this net year fuel k s = (evs, o) ->
  o <> Running ->
  exists n,
    length (requests evs) = S n ∧
    map kind_of evs =
      concat (replicate n [KFetch; KProgress; KDelay]) ++ [KFetch; final_kind o] ∧
    delays evs = replicate n (delay this).
Proof.
  revert k s evs o. induction fuel as [|fuel IH]; intros k s evs o.
  - intros [= _ <-]. done.
  - cbn [fetch_loop].
    destruct (loop_body_cases (net k) s)
      as [(e & ->)|[(d & st & tx & tp & _ & _ & ->)|(d & st & tx & tp & _ & _ & ->)]].
    + intros [= <- <-] _. by exists 0%nat.
    + intros [= <- <-] _. by exists 0%nat.
    + destruct (fetch_loop this net year fuel (S k) _) as [evs' o'] eqn:Hrest.
      intros [= <- <-] Ho.
      destruct (IH _ _ _ _ Hrest Ho) as (n & Hlen & Hkinds & Hdelays).
      exists (S n). cbn [app].
      split; [unfold requests in *; cbn; by rewrite Hlen|]. split.
      * cbn [map kind_of replicate concat app]. by rewrite Hkinds.
      * unfold delays in *. cbn. by rewrite Hdelays.
Qed.

Lemma loop_progress fuel k s evs o :
  fetch_loop this net year fuel k s = (evs, o) ->
  progress_pages evs =
    map (fun i : nat => currentPage s + 1 + Z.of_nat i) (seq 0 (length (progress_pages evs))) ∧
  match o with
  | Returned r =>
      length (progress_pages evs) = length (requests evs) ∧
      Z.of_nat (length (allBills s)) + sumZ (progress_counts evs) =
        Z.of_nat (length (bills r)) ∧
      exists front last,
        progress_counts evs = front ++ [last] ∧
        Forall (fun c => ps <= c) front ∧ last < ps
  | _ => True
  end.
Proof.
  revert k s evs o. induction fuel as [|fuel IH]; intros k s evs o.
  - intros [= <- <-]. done.
  - cbn [fetch_loop].
    destruct (loop_body_cases (net k) s)
      as [(e & ->)|[(d & st & tx & tp & _ & Hd & ->)|(d & st & tx & tp & _ & Hd & ->)]].
    + intros [= <- <-]. done.
    + intros [= <- <-]. cbn. split; [f_equal; lia|]. split; [done|]. split.
      * rewrite length_app. unfold bill_count. lia.
      * exists [], (bill_count d). done.
    + destruct (fetch_loop this net year fuel (S k) _) as [evs' o'] eqn:Hrest.
      intros [= <- <-].
      destruct (IH _ _ _ _ Hrest) as [Hpages Ho]. cbn [currentPage allBills] in *.
      split.
      * cbn [app progress_pages omap list_omap length seq map].
        fold (progress_pages evs'). f_equal; [lia|].
        rewrite Hpages at 1. rewrite <- seq_shift, map_map.
        apply map_ext. intros i. lia.
      * destruct o' as [r| |]; [|done..].
        destruct Ho as (Hlen & Hsum & front & last & Hcounts & Hfront & Hlast).
        cbn [app progress_pages progress_counts requests omap list_omap length].
        fold (progress_pages evs') (progress_counts evs') (requests evs').
        split; [by rewrite Hlen|]. split.
        -- rewrite length_app in Hsum. unfold bill_count in *. cbn [sumZ foldr].
           change (foldr Z.add 0 (progress_counts evs')) with (sumZ (progress_counts evs')).
           lia.
        -- exists (bill_count d :: front), last. rewrite Hcounts.
           split; [done|]. split; [by constructor | done].
Qed.

Lemma add_campaigns_keeps (m : gmap string item) d :
  (forall i c, m !! i = Some c -> item_id c = i ∧ item_type c = "campaign") ->
  forall i c, add_campaigns m d !! i = Some c -> item_id c = i ∧ item_type c = "campaign".
Proof.
  unfold add_campaigns. destruct (doc_included d) as [inc|]; [|done].
  assert (Hinc : Forall (fun c => item_type c = "campaign") (List.filter is_campaign inc)).
  { apply List.Forall_forall. intros c [_ Hc]%List.filter_In.
    unfold is_campaign in Hc. by apply bool_decide_eq_true_1 in Hc. }
  revert m. induction Hinc as [|c0 l Hc0 _ IH]; intros m Hm; [done|].
  cbn [fold_left]. apply IH. intros i c.
  destruct (decide (item_id c0 = i)) as [<-|Hne].
  - rewrite lookup_insert_eq. by intros [= <-].
  - rewrite lookup_insert_ne by done. apply Hm.
Qed.

Lemma loop_campaigns fuel k s evs r :
  (forall i c, allCampaigns s !! i = Some c -> item_id c = i ∧ item_type c = "campaign") ->
  fetch_loop this net year fuel k s = (evs, Returned r) ->
  forall i c, campaigns r !! i = Some c -> item_id c = i ∧ item_type c = "campaign".
Proof.
  revert k s evs. induction fuel as [|fuel IH]; intros k s evs Hs; [done|].
  cbn [fetch_loop].
  destruct (loop_body_cases (net k) s)
    as [(e & ->)|[(d & st & tx & tp & _ & _ & ->)|(d & st & tx & tp & _ & _ & ->)]].
  - done.
  - intros [= _ <-]. cbn [campaigns]. by apply add_campaigns_keeps.
  - destruct (fetch_loop this net year fuel (S k) _) as [evs' o'] eqn:Hrest.
    intros [= _ ->]. eapply IH; [|exact Hrest].
    cbn [allCampaigns]. by apply add_campaigns_keeps.
Qed.

Lemma loop_never_ends fuel k s :
  (forall j u, full_answer this (net j u)) ->
  let run := fetch_loop this net year fuel k s in
  run.2 = Running ∧ length (requests run.1) = fuel.
Proof.
  intros Hfull. revert k s. induction fuel as [|fuel IH]; intros k s; [done|].
  cbn [fetch_loop].
  destruct (Hfull k (buildApiUrl this year (offset s))) as (st & tx & d & Hnet & Hd).
  destruct (loop_body_cases (net k) s)
    as [(e & Hb)|[(d' & st' & tx' & tp & Hnet' & Hd' & Hb)|(d' & st' & tx' & tp & _ & _ & ->)]].
  - exfalso. unfold loop_body in Hb. rewrite Hnet in Hb. cbn [negb] in Hb.
    by destruct (_ <? _).
  - exfalso. rewrite Hnet in Hnet'. injection Hnet' as <- <- <-. lia.
  - specialize (IH (S k)
      {| allBills := allBills s ++ List.filter is_bill (doc_data d');
         allCampaigns := add_campaigns (allCampaigns s) d';
         offset := offset s + ps; totalPages := tp;
         currentPage := currentPage s + 1 |}).
    cbv zeta in IH.
    destruct (fetch_loop this net year fuel (S k) _) as [evs' o']. cbn [fst snd] in *.
    destruct IH as [-> Hlen]. split; [done|].
    rewrite requests_app, length_app, Hlen. done.
Qed.

Lemma offsets_from_NoDup o n : ps <> 0 -> List.NoDup (offsets_from this year o n).
Proof.
  intros Hps. unfold offsets_from. apply NoDup_ListNoDup.
  apply NoDup_fmap_2_strong; [|apply NoDup_ListNoDup, List.seq_NoDup].
  intros i j _ _ [= Heq]. nia.
Qed.

End RunFacts.

(** X3.  Whatever the network answers, a run requests the offsets 0,
    pageSize, 2 pageSize, ... of its year in this order, always with the
    page size of the exporter; unless the page size is 0, no request is made
    twice. *)
Theorem requests_advance_by_page_size
    (this : PatreonDataExporter) (net : network) (fuel : nat) (year : Z) :
  let evs := (fetchYearData this net fuel year).1 in
  requests evs =
    map (fun i : nat => {| url_base := baseUrl this; url_year := year;
                           url_offset := Z.of_nat i * pageSize this;
                           url_count := pageSize this |})
        (seq 0 (length (requests evs))) ∧
  (pageSize this <> 0 -> List.NoDup (requests evs)).
Proof.
  cbv zeta. pose proof (fetch_loop_requests this net year fuel 0 initial_state) as H.
  cbv zeta in H. fold (fetchYearData this net fuel year) in H.
  split.
  - rewrite H at 1. unfold offsets_from, buildApiUrl. apply map_ext. intros i.
    cbn [offset initial_state]. f_equal.
  - intros Hps. rewrite H. by apply offsets_from_NoDup.
Qed.

(** X4.  A run that ends is a sequence of rounds request, progress report,
    delay, followed by one last request and either a progress report (the
    run resolves) or an error log (the run rejects): the delay is awaited
    between two requests, never after the last one, and is always the delay
    of the exporter. *)
Theorem finished_run_shape
    (this : PatreonDataExporter) (net : network) (fuel : nat) (year : Z)
    (evs : list event) (o : outcome) :
  fetchYearData this net fuel year = (evs, o) ->
  o <> Running ->
  exists n,
    length (requests evs) = S n ∧
    map kind_of evs =
      concat (replicate n [KFetch; KProgress; KDelay]) ++ [KFetch; final_kind o] ∧
    delays evs = replicate n (delay this).
Proof. apply finished_loop_shape. Qed.

(** X5.  In a run that resolves, the progress callback is called once per
    request, with the page numbers 1, 2, 3, ...; the bill counts it is given
    are at least the page size except the last, which is smaller, and they
    add up to the number of bills returned. *)
Theorem progress_reports_every_page
    (this : PatreonDataExporter) (net : network) (fuel : nat) (year : Z)
    (evs : list event) (r : year_data) :
  fetchYearData this net fuel year = (evs, Returned r) ->
  progress_pages evs = map (fun i : nat => Z.of_nat i + 1) (seq 0 (length (requests evs))) ∧
  sumZ (progress_counts evs) = Z.of_nat (length (bills r)) ∧
  exists front last,
    progress_counts evs = front ++ [last] ∧
    Forall (fun c => pageSize this <= c) front ∧ last < pageSize this.
Proof.
  intros Hrun.
  destruct (loop_progress this net year _ _ _ _ _ Hrun) as (Hpages & Hlen & Hsum & Hcounts).
  split; [|split; [|exact Hcounts]].
  - rewrite Hpages, Hlen. apply map_ext. intros i. cbn. lia.
  - cbn in Hsum. lia.
Qed.

(** X6.  The campaign mapping a run returns files every campaign under its
    own id and holds campaign-typed records only. *)
Theorem returned_campaigns_are_filed_by_id
    (this : PatreonDataExporter) (net : network) (fuel : nat) (year : Z)
    (evs : list event) (r : year_data) (i : string) (c : item) :
  fetchYearData this net fuel year = (evs, Returned r) ->
  campaigns r !! i = Some c ->
  item_id c = i ∧ item_type c = "campaign".
Proof.
  intros Hrun. eapply loop_campaigns; [|exact Hrun].
  intros j c'. cbn. by rewrite lookup_empty.
Qed.

(** X7.  The loop has no other exit than a short page or an error: against a
    server that answers every request with at least pageSize bills, the run
    makes one request per iteration and never ends, whatever total the
    answers announce. *)
Theorem full_pages_never_end
    (this : PatreonDataExporter) (net : network) (year : Z) (fuel : nat) :
  (forall k u, full_answer this (net k u)) ->
  (fetchYearData this net fuel year).2 = Running ∧
  length (requests (fetchYearData this net fuel year).1) = fuel.
Proof. intros Hfull. by apply loop_never_ends. Qed.

(** ** Runs of fetchYearData over a sequence of pages *)








(** ** The table built by generateCSV *)

Lemma Array_sort_length {A} (key : A -> Z) (l : list A) :
  length (JS.Array_sort (descending key) l) = length l.
Proof. apply Permutation_length, Array_sort_perm. Qed.

Lemma yearly_sum_cover (ks : list string) (m : gmap string Z) :
  List.NoDup ks ->
  (forall k, k ∈ dom m -> k ∈ ks) ->
  sumZ (map (fun k => default 0 (m !! k)) ks) = yearly_sum m.
Proof.
  intros Hnd. revert m. induction Hnd as [|k ks Hk Hnd IH]; intros m Hdom.
  - assert (m = ∅) as ->.
    { apply map_empty. intros i. apply not_elem_of_dom. intros Hi.
      by apply Hdom, elem_of_nil in Hi. }
    by rewrite yearly_sum_empty.
  - cbn [map sumZ foldr]. rewrite (yearly_sum_delete m k). f_equal.
    rewrite <- (IH (delete k m)).
    + apply (f_equal sumZ). apply map_ext_in. intros k' Hk'.
      rewrite lookup_delete_ne; [done|]. intros ->. done.
    + intros k'. rewrite dom_delete_L, elem_of_difference, elem_of_singleton.
      intros [Hin Hne]. apply Hdom, elem_of_cons in Hin as [->|Hin]; done.
Qed.

(** X9.  The table has one row per creator below the header row, and every
    row, the header included, has four fields plus one per requested
    year. *)
Theorem csv_table_is_rectangular
    (intl : Intl) (creatorData : list (string * creator)) (years : list Z) :
  length (csv_rows intl creatorData years) = S (length creatorData) ∧
  Forall (fun row => length row = (4 + length years)%nat)
         (csv_rows intl creatorData years).
Proof.
  assert (Hy : length (sortedYears years) = length years)
    by apply Array_sort_length.
  unfold csv_rows. split.
  - cbn [length]. rewrite length_map. unfold sortedCreators.
    rewrite Array_sort_length. unfold creatorsArray, Map_values.
    by rewrite !length_map.
  - constructor.
    + unfold headers. rewrite length_app, length_map, Hy. done.
    + apply List.Forall_forall. intros row (ct & <- & _)%List.in_map_iff.
      unfold csv_row. rewrite length_app, length_map, Hy. done.
Qed.

(** X10.  When every year key of the fetched data is the text of a requested
    year, no year is requested twice and the amounts of all bills stay
    together within 2^53, the totals of the rows add up to the combined
    amounts of all included bills: the Total Spend column accounts for every
    included bill once. *)
Theorem total_column_accounts_for_every_bill
    (billsByYear : list (string * year_data)) (years : list Z) :
  List.NoDup years ->
  (forall k, k ∈ map fst billsByYear -> k ∈ map JS.Number_toString years) ->
  in_safe_range billsByYear ->
  sumZ (map totalAmountCents (sortedCreators (processBillsData billsByYear) years)) =
  included_amount billsByYear.
Proof.
  intros Hnd Hkeys Hsafe.
  rewrite (sumZ_perm _ (map totalAmountCents
                          (creatorsArray (processBillsData billsByYear) years))).
  2:{ apply Permutation_map. unfold sortedCreators. apply Array_sort_perm. }
  destruct (processBillsData_safe _ Hsafe) as (<- & Hmag & _).
  unfold in_safe_range in Hsafe.
  pose proof (steps_entries (included billsByYear) []
                (fun y => y ∈ map fst billsByYear) (List.Forall_nil _)
                (included_year_keys billsByYear)) as Hent.
  rewrite <- processBillsData_included in Hent.
  assert (Hkeys' : List.NoDup (map JS.Number_toString years)).
  { apply NoDup_ListNoDup. apply (NoDup_fmap_2 JS.Number_toString).
    by apply NoDup_ListNoDup. }
  unfold grand_total, creatorsArray, Map_values. rewrite !map_map.
  apply (f_equal sumZ). apply map_ext_in. intros [k c] Hin. cbn [snd totalAmountCents].
  rewrite List.Forall_forall in Hent. destruct (Hent _ Hin) as [_ Hyears].
  cbn [snd] in Hyears.
  apply list_elem_of_In, grand_magnitude_entry in Hin. cbn [snd] in Hin.
  rewrite <- (yearly_sum_cover (map JS.Number_toString years)) in Hin; [|done|].
  2:{ intros y Hy. rewrite dom_fmap_L in Hy. apply Hkeys, Hyears. exact Hy. }
  rewrite map_map in Hin.
  rewrite fold_left_spend.
  - rewrite <- (yearly_sum_cover (map JS.Number_toString years)); [|done|].
    + rewrite map_map. cbn. done.
    + intros y Hy. apply Hkeys, Hyears. exact Hy.
  - cbn [Z.abs]. etransitivity; [|exact Hsafe]. etransitivity; [|exact Hmag].
    etransitivity; [|exact Hin]. apply Z.eq_le_incl.
    change (Z.abs 0) with 0. rewrite Z.add_0_l. f_equal.
    apply map_ext. intros year. unfold spend_in. rewrite lookup_fmap.
    by destruct (yearlySpends c !! JS.Number_toString year).
Qed.

(** ** The URL built by buildApiUrl *)

Example buildApiUrl_text_2023 :
  buildApiUrl_text "Europe/Berlin" constructor 2023 100 =
  "https://www.patreon.com/api/bills?timezone=Europe%2FBerlin&include=campaign&fields%5Bcampaign%5D=name%2Curl&fields%5Bbill%5D=amount_cents%2Cvat_charge_amount_cents%2Ccurrency&json-api-use-default-includes=false&filter%5Bdue_date_year%5D=2023&page%5Boffset%5D=100&page%5Bcount%5D=100&json-api-version=1.0".
Proof. vm_compute. reflexivity. Qed.

(** X11.  Two calls of buildApiUrl in the same time zone build the same query
    parameters and have the same base URL exactly when they agree on year,
    offset and page size: the request record used for the network stands for
    the URL. *)
Theorem query_determines_request
    (timeZone : string) (this this' : PatreonDataExporter) (year year' offset offset' : Z) :
  buildApiUrl_params timeZone this year offset =
    buildApiUrl_params timeZone this' year' offset' ∧
  baseUrl this = baseUrl this'
  <-> buildApiUrl this year offset = buildApiUrl this' year' offset'.
Proof.
  unfold buildApiUrl_params, buildApiUrl, JS.Number_toString. split.
  - intros [[= Hy Ho Hc] Hb].
    apply pretty_Z_inj in Hy, Ho, Hc. by rewrite Hy, Ho, Hc, Hb.
  - intros [= Hb Hy Ho Hc]. by rewrite Hy, Ho, Hc, Hb.
Qed.

(** ** getAvailableYears and the year selector *)

(** X12.  getAvailableYears makes exactly one request, for the current year
    at offset 0.  It resolves only when the answer is a success with a JSON
    body that has [meta], and then with the [years] of [meta], an absent list
    counting as empty; in every other case it logs the error and rejects with
    it. *)
Theorem years_listing_is_one_request
    (this : PatreonDataExporter) (h : host) (fetch : url -> response) :
  let u := buildApiUrl this (host_fullYear h) 0 in
  let run := getAvailableYears this h fetch in
  export_requests run.1 = [u] ∧
  (forall ys, run.2 = Listed ys <->
     exists status statusText data m,
       fetch u = Resolved true status statusText (inr data) ∧
       doc_meta data = Some m ∧ ys = default [] (meta_years m)) ∧
  (forall e, run.2 = ListingFailed e -> run.1 = [Net (EvFetch u); LogYearsError e]).
Proof.
  cbv zeta. unfold getAvailableYears.
  destruct (fetch _) as [e|[] status statusText [e|data]] eqn:Hf; cbn [negb fst snd];
    try destruct (doc_meta data) as [m|] eqn:Hm; cbn [fst snd];
    (split; [done|]); (split; [|try done; by intros e' [= <-]]);
    intros ys; (split; [try done|]).
  all: try (by intros (? & ? & ? & ? & [=] & _)).
  - intros [= <-]. by exists status, statusText, data, m.
  - intros (? & ? & ? & m' & [= _ _ <-] & Hm' & ->).
    rewrite Hm in Hm'. by injection Hm' as <-.
  - intros (? & ? & ? & m' & [= _ _ <-] & Hm' & _). congruence.
Qed.

(** X13.  createExportButton builds nothing and asks nothing when the button
    is already on the page.  Otherwise the selector offers "all" first and
    then the listed years, each once per occurrence in the listing, in
    descending order; when the listing fails it offers "all" alone. *)
Theorem selector_lists_years_descending
    (this : PatreonDataExporter) (h : host) (d : webpage) (fetch : url -> response) :
  (has_button d = true -> createExportButton this h d fetch = ([], None)) ∧
  (has_button d = false ->
   match (getAvailableYears this h fetch).2 with
   | Listed ys =>
       exists sorted,
         (createExportButton this h d fetch).2 =
           Some (("all", "All Years") ::
                 map (fun y => (JS.Number_toString y, JS.Number_toString y)) sorted) ∧
         Permutation sorted ys ∧
         StronglySorted (fun a b => b <= a) sorted
   | ListingFailed e =>
       (createExportButton this h d fetch).2 = Some [("all", "All Years")]
   end).
Proof.
  unfold createExportButton. split; intros ->; [done|].
  destruct (getAvailableYears this h fetch) as [evs [ys|e]]; cbn [snd]; [|done].
  eexists. split; [reflexivity|]. split.
  - apply (Array_sort_perm (fun y : Z => y)).
  - apply (Array_sort_sorted (fun y : Z => y)).
Qed.

(** X14.  With a [parseInt] that reads back the text of every listed year
    and gives NaN on "all", each value the selector offers selects what it
    names: "all" selects the listed years as listed, the text of a year
    selects that year alone. *)
Theorem offered_value_selects_its_year
    (h : host) (ys : list Z) (v : string) :
  Forall (fun y => host_parseInt h (JS.Number_toString y) = Some y) ys ->
  host_parseInt h "all" = None ->
  In v ("all" :: map JS.Number_toString (JS.Array_sort (descending (fun y : Z => y)) ys)) ->
  (v = "all" ∧ yearsToProcess h ys v = Some ys) ∨
  (exists y, In y ys ∧ v = JS.Number_toString y ∧ yearsToProcess h ys v = Some [y]).
Proof.
  intros Hparse Hall [<-|Hv].
  - left. split; [done|]. unfold yearsToProcess. by rewrite bool_decide_eq_true_2.
  - right. apply List.in_map_iff in Hv as (y & <- & Hy).
    assert (Hin : In y ys).
    { eapply Permutation_in; [apply (Array_sort_perm (fun y : Z => y))|exact Hy]. }
    exists y. split; [done|]. split; [done|].
    rewrite List.Forall_forall in Hparse. specialize (Hparse y Hin).
    unfold yearsToProcess. rewrite bool_decide_eq_false_2.
    + by rewrite Hparse.
    + intros Heq. rewrite Heq in Hparse. congruence.
Qed.

(** ** exportData *)

Lemma saved_files_app evs evs' :
  saved_files (evs ++ evs') = saved_files evs ++ saved_files evs'.
Proof. apply omap_app. Qed.

Lemma export_requests_app evs evs' :
  export_requests (evs ++ evs') = export_requests evs ++ export_requests evs'.
Proof. apply omap_app. Qed.

Lemma saved_files_Net evs : saved_files (map Net evs) = [].
Proof. induction evs as [|e evs IH]; [done|]. exact IH. Qed.

Lemma saved_files_Dom l : saved_files (map Dom l) = [].
Proof. induction l as [|e l IH]; [done|]. exact IH. Qed.

Lemma export_requests_Dom l : export_requests (map Dom l) = [].
Proof. induction l as [|e l IH]; [done|]. exact IH. Qed.

Lemma export_requests_Net evs : export_requests (map Net evs) = requests evs.
Proof.
  induction evs as [|e evs IH]; [done|].
  destruct e; cbn; unfold export_requests, requests in IH; by rewrite ?IH.
Qed.

(** The two shapes of a run of getAvailableYears. *)
Lemma listing_events this h fetch :
  let u := buildApiUrl this (host_fullYear h) 0 in
  (exists ys, getAvailableYears this h fetch = ([Net (EvFetch u)], Listed ys)) ∨
  (exists e, getAvailableYears this h fetch =
             ([Net (EvFetch u); LogYearsError e], ListingFailed e)).
Proof.
  cbv zeta. unfold getAvailableYears.
  destruct (fetch _) as [e|[] status statusText [e|data]]; cbn [negb];
    try destruct (doc_meta data); eauto.
Qed.

Lemma fetch_years_saved this net fuel years k o :
  saved_files (fetch_years this net fuel years k o).1 = [].
Proof.
  revert k o. induction years as [|y years IH]; intros k o; [done|].
  cbn [fetch_years].
  destruct (fetch_loop this net y fuel k initial_state) as [evs [r|e|]];
    cbn [fst]; try apply saved_files_Net.
  specialize (IH (k + length (requests evs))%nat (Object_set y r o)).
  destruct (fetch_years this net fuel years _ _) as [evs' res]. cbn [fst] in *.
  by rewrite saved_files_app, saved_files_Net, IH.
Qed.

Lemma fetch_years_requests this net fuel years k o evs res :
  fetch_years this net fuel years k o = (evs, res) ->
  exists counts : list nat,
    export_requests evs =
      concat (zip_with (fun y n => offsets_from this y 0 n) years counts) ∧
    match res with
    | Fetched _ => length counts = length years ∧ Forall (fun n => (0 < n)%nat) counts
    | _ => True
    end.
Proof.
  revert k o evs res. induction years as [|y years IH]; intros k o evs res.
  - intros [= <- <-]. by exists [].
  - cbn [fetch_years].
    pose proof (fetch_loop_requests this net y fuel k initial_state) as Hreq.
    cbv zeta in Hreq. cbn [offset initial_state] in Hreq.
    destruct (fetch_loop this net y fuel k initial_state) as [evs0 o0] eqn:Hloop.
    cbn [fst] in Hreq.
    destruct o0 as [r|e|].
    + destruct (fetch_years this net fuel years _ _) as [evs' res'] eqn:Hrest.
      intros [= <- <-].
      destruct (IH _ _ _ _ Hrest) as (counts & Hreqs & Hres).
      destruct (finished_loop_shape this net y _ _ _ _ _ Hloop) as (n & Hn & _);
        [done|].
      exists (length (requests evs0) :: counts). split.
      * rewrite export_requests_app, export_requests_Net. cbn [zip_with concat].
        by rewrite <- Hreq, Hreqs.
      * destruct res'; [|done..]. destruct Hres as [Hlen Hpos].
        split; [cbn; by rewrite Hlen|]. constructor; [lia|done].
    + intros [= <- <-]. exists [length (requests evs0)]. split; [|done].
      rewrite export_requests_Net. cbn [zip_with concat].
      destruct years; cbn [zip_with concat]; by rewrite app_nil_r.
    + intros [= <- <-]. exists [length (requests evs0)]. split; [|done].
      rewrite export_requests_Net. cbn [zip_with concat].
      destruct years; cbn [zip_with concat]; by rewrite app_nil_r.
Qed.

(** X15.  A file is saved only by a run that has fetched every year: a
    completed run saves exactly one file (none on a page without download
    support), named after the date, whose content is the CSV of the run; a
    run that fails or does not finish saves nothing. *)
Theorem file_saved_only_by_completed_export
    (this : PatreonDataExporter) (h : host) (d : webpage) (net : network) (fuel : nat) :
  let run := exportData this h d net fuel in
  saved_files run.1 =
  match run.2 with
  | Exported csvContent =>
      if link_download d then
        [("patreon_membership_data_" +:+ host_isoDate h +:+ ".csv", csvContent)]
      else []
  | _ => []
  end.
Proof.
  cbv zeta. unfold exportData.
  destruct (has_button d && has_select d); cbn [negb fst snd]; [|done].
  destruct (listing_events this h (net 0%nat)) as [(ys & ->)|(e & ->)].
  2:{ cbn [fst snd]. by rewrite !saved_files_app, !saved_files_Dom. }
  destruct (length ys =? 0)%nat.
  { cbn [fst snd]. by rewrite !saved_files_app, !saved_files_Dom. }
  destruct (yearsToProcess h ys (select_value d)) as [years|].
  2:{ cbn [fst snd]. by rewrite !saved_files_app, !saved_files_Dom. }
  pose proof (fetch_years_saved this net fuel years 1 []) as Hsaved.
  destruct (fetch_years this net fuel years 1 []) as [evs2 [o|e|]]; cbn [fst snd] in *.
  - rewrite !saved_files_app, !saved_files_Dom, Hsaved. cbn [app].
    unfold downloadCSV. by destruct (link_download d).
  - by rewrite !saved_files_app, !saved_files_Dom, Hsaved.
  - by rewrite !saved_files_app, !saved_files_Dom, Hsaved.
Qed.

(** X16.  A run that fails has disabled both controls at its start and ends
    by logging the error, showing the failure on the button and enabling both
    controls again. *)
Theorem failed_export_reenables_controls
    (this : PatreonDataExporter) (h : host) (d : webpage) (net : network) (fuel : nat)
    (evs : list export_event) (e : error) :
  exportData this h d net fuel = (evs, ExportFailed e) ->
  exists mid,
    evs =
    [Dom (SetButtonDisabled true); Dom (SetSelectDisabled true);
     Dom (SetButtonText "Getting available years...")] ++ mid ++
    [LogExportError e; Dom (SetButtonText "Export failed - check console");
     Dom (SetButtonDisabled false); Dom (SetSelectDisabled false)].
Proof.
  unfold exportData, updateProgress.
  destruct (has_button d); cbn [andb negb]; [|done].
  destruct (has_select d); cbn [negb]; [|done].
  destruct (getAvailableYears this h (net 0%nat)) as [evs0 [ys|e0]].
  2:{ intros [= <- <-]. by exists evs0. }
  destruct (length ys =? 0)%nat.
  { intros [= <- <-]. by exists evs0. }
  destruct (yearsToProcess h ys (select_value d)) as [years|]; [|done].
  destruct (fetch_years this net fuel years 1 []) as [evs2 [o|e2|]]; [done| |done].
  intros [= <- <-].
  exists (evs0 ++ [Dom (SetButtonText "Fetching data... (0%)")] ++ evs2).
  cbn. by rewrite <- !app_assoc.
Qed.

(** X17.  When the listing has no years (an empty or absent list), the run
    fails with 'No years available' after that single request, and saves
    nothing. *)
Theorem empty_year_list_fails_export
    (this : PatreonDataExporter) (h : host) (d : webpage) (net : network) (fuel : nat)
    (status : Z) (statusText : string) (data : document) (m : meta) :
  has_button d = true -> has_select d = true ->
  net 0%nat (buildApiUrl this (host_fullYear h) 0) =
    Resolved true status statusText (inr data) ->
  doc_meta data = Some m ->
  default [] (meta_years m) = [] ->
  let run := exportData this h d net fuel in
  run.2 = ExportFailed no_years_error ∧
  export_requests run.1 = [buildApiUrl this (host_fullYear h) 0] ∧
  saved_files run.1 = [].
Proof.
  intros Hb Hs Hnet Hm Hys. cbv zeta.
  unfold exportData, getAvailableYears, updateProgress.
  rewrite Hb, Hs, Hnet, Hm, Hys. done.
Qed.

(** X18.  A completed run has made the listing request first, and then has
    fetched the years to process one after the other, in their order, each
    from offset 0 in steps of the page size and with at least one request. *)
Theorem export_fetches_years_in_sequence
    (this : PatreonDataExporter) (h : host) (d : webpage) (net : network) (fuel : nat)
    (evs : list export_event) (csvContent : string) :
  exportData this h d net fuel = (evs, Exported csvContent) ->
  exists (allYears years : list Z) (counts : list nat),
    (getAvailableYears this h (net 0%nat)).2 = Listed allYears ∧
    yearsToProcess h allYears (select_value d) = Some years ∧
    length counts = length years ∧
    Forall (fun n => (0 < n)%nat) counts ∧
    export_requests evs =
      buildApiUrl this (host_fullYear h) 0 ::
      concat (zip_with (fun y n => offsets_from this y 0 n) years counts).
Proof.
  unfold exportData.
  destruct (has_button d && has_select d); cbn [negb]; [|done].
  destruct (listing_events this h (net 0%nat)) as [(ys & ->)|(e & ->)]; [|done].
  destruct (length ys =? 0)%nat; [done|].
  destruct (yearsToProcess h ys (select_value d)) as [years|] eqn:Hsel; [|done].
  destruct (fetch_years this net fuel years 1 []) as [evs2 [o|e2|]] eqn:Hyears;
    [|done..].
  intros Hrun.
  destruct (fetch_years_requests _ _ _ _ _ _ _ _ Hyears) as (counts & Hreq & Hlen & Hpos).
  exists ys, years, counts. split; [done|]. split; [done|].
  split; [done|]. split; [done|].
  apply (f_equal fst) in Hrun. cbn [fst] in Hrun. rewrite <- Hrun.
  rewrite !export_requests_app, !export_requests_Dom, Hreq.
  unfold downloadCSV. destruct (link_download d); cbn; by rewrite app_nil_r.
Qed.

(** ** The object billsByYear *)

Section YearObjectFacts.
Context {V : Type}.
Implicit Types (o : list (Z * V)) (k : Z) (v : V).


Lemma Object_get_None k o : Object_get k o = None <-> ~ In k (map fst o).
Proof.
  induction o as [|[k0 v0] o IH]; cbn [Object_get map fst In]; [tauto|].
  destruct (Z.eqb_spec k0 k) as [->|Hk0]; [split; [done | tauto]|].
  rewrite IH. tauto.
Qed.

Lemma Object_set_keys k v o :
  map fst (Object_set k v o) =
  match Object_get k o with Some _ => map fst o | None => map fst o ++ [k] end.
Proof.
  induction o as [|[k0 v0] o IH]; cbn [Object_set Object_get map fst]; [done|].
  destruct (Z.eqb_spec k0 k) as [->|Hk0]; cbn [map fst]; [done|].
  rewrite IH. by destruct (Object_get k o).
Qed.

Lemma Object_set_keys_NoDup k v o :
  List.NoDup (map fst o) -> List.NoDup (map fst (Object_set k v o)).
Proof.
  intros Hnd. rewrite Object_set_keys.
  destruct (Object_get k o) eqn:Hg; [done|].
  apply Object_get_None in Hg.
  apply NoDup_ListNoDup, NoDup_app. split; [by apply NoDup_ListNoDup|].
  split; [|apply NoDup_singleton].
  intros x Hx ->%list_elem_of_singleton. by apply list_elem_of_In in Hx.
Qed.

Lemma Object_set_keys_In k v o x :
  In x (map fst (Object_set k v o)) <-> x = k ∨ In x (map fst o).
Proof.
  rewrite Object_set_keys. destruct (Object_get k o) eqn:Hg.
  - split; [tauto|]. intros [->|?]; [|done].
    destruct (List.in_dec Z.eq_dec k (map fst o)) as [|Hn]; [done|].
    apply Object_get_None in Hn. congruence.
  - rewrite List.in_app_iff. cbn. intuition.
Qed.




Lemma filter_all {A} (P : A -> bool) (l : list A) :
  Forall (fun x => P x = true) l ->
  List.filter P l = l ∧ List.filter (fun x => negb (P x)) l = [].
Proof.
  induction 1 as [|x l Hx _ [IH1 IH2]]; [done|].
  cbn. rewrite Hx. cbn. by rewrite IH1, IH2.
Qed.

(** With array indices for keys only, the own properties are the properties
    in strictly ascending key order. *)
Lemma own_properties_ascending o :
  List.NoDup (map fst o) ->
  Forall (fun k => is_array_index k = true) (map fst o) ->
  Permutation (own_properties o) o ∧
  StronglySorted (fun a b : Z * V => fst a < fst b) (own_properties o).
Proof.
  intros Hnd Hidx. unfold own_properties.
  destruct (filter_all (fun e : Z * V => is_array_index (fst e)) o) as [-> ->].
  { by rewrite Forall_map in Hidx. }
  rewrite app_nil_r.
  pose proof (Array_sort_perm (fun e : Z * V => - fst e) o) as Hp.
  pose proof (Array_sort_sorted (fun e : Z * V => - fst e) o) as Hs.
  split; [done|].
  assert (Hnd' : List.NoDup (map fst (JS.Array_sort (descending (fun e : Z * V => - fst e)) o))).
  { eapply Permutation_NoDup; [|exact Hnd]. apply Permutation_map. by symmetry. }
  revert Hs Hnd'. generalize (JS.Array_sort (descending (fun e : Z * V => - fst e)) o).
  clear. intros l Hs. induction Hs as [|a l Hs IH Ha]; intros Hnd; [constructor|].
  cbn [map] in Hnd. apply List.NoDup_cons_iff in Hnd as [Hn Hnd].
  constructor; [by apply IH|].
  rewrite List.Forall_forall in *. intros b Hb. specialize (Ha b Hb).
  assert (fst b <> fst a).
  { intros Heq. apply Hn. rewrite <- Heq. by apply List.in_map. }
  lia.
Qed.
End YearObjectFacts.

Lemma fetch_years_keys this net fuel years k o evs o' :
  fetch_years this net fuel years k o = (evs, Fetched o') ->
  List.NoDup (map fst o) ->
  List.NoDup (map fst o') ∧
  forall y, In y (map fst o') <-> In y (map fst o) ∨ In y years.
Proof.
  revert k o evs. induction years as [|y years IH]; intros k o evs.
  - intros [= _ <-] Hnd. split; [done|]. cbn. tauto.
  - cbn [fetch_years].
    destruct (fetch_loop this net y fuel k initial_state) as [evs0 [r|e|]]; [|done..].
    destruct (fetch_years this net fuel years _ _) as [evs1 res] eqn:Hrest.
    intros [= _ ->] Hnd.
    destruct (IH _ _ _ Hrest (Object_set_keys_NoDup y r o Hnd)) as [Hnd' Hin].
    split; [done|]. intros x. rewrite Hin, Object_set_keys_In. cbn. intuition.
Qed.

(** X19.  When the years are array indices (0 up to 2^32 - 2), the entries
    of billsByYear that processBillsData walks are in strictly ascending
    year order, one per fetched year, whatever the order in which the years
    were fetched. *)
Theorem years_are_aggregated_in_ascending_order
    (this : PatreonDataExporter) (net : network) (fuel : nat) (years : list Z) (k : nat)
    (evs : list export_event) (billsByYear : list (Z * year_data)) :
  fetch_years this net fuel years k [] = (evs, Fetched billsByYear) ->
  Forall (fun y => is_array_index y = true) years ->
  exists keys,
    map fst (Object_entries billsByYear) = map JS.Number_toString keys ∧
    StronglySorted Z.lt keys ∧
    (forall y, In y keys <-> In y years).
Proof.
  intros Hrun Hidx.
  destruct (fetch_years_keys _ _ _ _ _ _ _ _ Hrun) as [Hnd Hin]; [constructor|].
  assert (Hidx' : Forall (fun k => is_array_index k = true) (map fst billsByYear)).
  { rewrite List.Forall_forall in *. intros y Hy. apply Hidx.
    apply Hin in Hy as [[]|Hy]. done. }
  destruct (own_properties_ascending billsByYear Hnd Hidx') as [Hp Hs].
  exists (map fst (own_properties billsByYear)). split; [|split].
  - unfold Object_entries. rewrite !map_map. done.
  - clear -Hs. induction Hs as [|a l Hs IH Ha]; [constructor|].
    cbn [map]. constructor; [done|]. by rewrite Forall_map.
  - intros y. split; intros Hy.
    + assert (In y (map fst billsByYear)) as [[]|?]%Hin; [|done].
      eapply Permutation_in; [apply Permutation_map; exact Hp | exact Hy].
    + eapply Permutation_in; [apply Permutation_map; symmetry; exact Hp |].
      apply Hin. by right.
Qed.

(** ** An export against a server that answers by URL alone *)

Section Stateless.
Variables (this : PatreonDataExporter) (net : network) (fuel : nat).
Hypothesis stateless : forall j j' u, net j u = net j' u.





End Stateless.



(** ** The further properties on concrete runs *)

Lemma requests_advance_by_page_size_witness :
  let evs := (fetchYearData constructor
                (Sample.paged constructor [Sample.full_page; Runs.short_page]) 5 2023).1 in
  pageSize constructor <> 0 ∧
  map url_offset (requests evs) = [0; 100] ∧
  List.NoDup (requests evs).
Proof.
  cbv zeta.
  destruct (requests_advance_by_page_size constructor
              (Sample.paged constructor [Sample.full_page; Runs.short_page]) 5 2023)
    as [Hreq Hnd].
  assert (Hps : pageSize constructor <> 0) by discriminate.
  split; [exact Hps|]. split; [vm_compute; reflexivity|]. exact (Hnd Hps).
Defined.

Lemma finished_run_shape_witness :
  let run := fetchYearData constructor Runs.failing_second 5 2022 in
  run = (run.1, Thrown (http_error 500 "Internal Server Error")) ∧
  exists n,
    length (requests run.1) = S n ∧
    map kind_of run.1 =
      concat (replicate n [KFetch; KProgress; KDelay]) ++ [KFetch; KError] ∧
    delays run.1 = replicate n 200.
Proof.
  cbv zeta.
  assert (Hrun : fetchYearData constructor Runs.failing_second 5 2022 =
                 ((fetchYearData constructor Runs.failing_second 5 2022).1,
                  Thrown (http_error 500 "Internal Server Error")))
    by (vm_compute; reflexivity).
  split; [exact Hrun|].
  apply (finished_run_shape constructor Runs.failing_second 5 2022 _ _ Hrun).
  discriminate.
Defined.

Lemma progress_reports_every_page_witness :
  let run := fetchYearData constructor
               (Sample.paged constructor [Sample.full_page; Runs.short_page]) 5 2023 in
  run = (run.1, Returned (Demo.returned run)) ∧
  progress_pages run.1 = [1; 2] ∧
  sumZ (progress_counts run.1) = 102 ∧
  length (bills (Demo.returned run)) = 102%nat.
Proof.
  cbv zeta.
  set (run := fetchYearData constructor
                (Sample.paged constructor [Sample.full_page; Runs.short_page]) 5 2023).
  assert (Hrun : run = (run.1, Returned (Demo.returned run)))
    by (vm_compute; reflexivity).
  destruct (progress_reports_every_page constructor _ 5 2023 _ _ Hrun)
    as (Hpages & Hsum & _).
  split; [exact Hrun|]. split; [|split].
  - rewrite Hpages. vm_compute. reflexivity.
  - rewrite Hsum. vm_compute. reflexivity.
  - vm_compute. reflexivity.
Defined.

Lemma returned_campaigns_are_filed_by_id_witness :
  let run := fetchYearData constructor
               (Sample.paged constructor [Runs.short_page]) 5 2023 in
  run = (run.1, Returned (Demo.returned run)) ∧
  campaigns (Demo.returned run) !! "c2" = Some Sample.bob ∧
  item_id Sample.bob = "c2" ∧ item_type Sample.bob = "campaign".
Proof.
  cbv zeta.
  set (run := fetchYearData constructor (Sample.paged constructor [Runs.short_page]) 5 2023).
  assert (Hrun : run = (run.1, Returned (Demo.returned run)))
    by (vm_compute; reflexivity).
  assert (Hc : campaigns (Demo.returned run) !! "c2" = Some Sample.bob)
    by (vm_compute; reflexivity).
  split; [exact Hrun|]. split; [exact Hc|].
  exact (returned_campaigns_are_filed_by_id constructor _ 5 2023 _ _ "c2" Sample.bob
           Hrun Hc).
Defined.

Lemma full_pages_never_end_witness :
  (forall k u, full_answer constructor (Demo.api_endless k u)) ∧
  (fetchYearData constructor Demo.api_endless 7 2023).2 = Running ∧
  length (requests (fetchYearData constructor Demo.api_endless 7 2023).1) = 7%nat.
Proof.
  assert (Hfull : forall k u, full_answer constructor (Demo.api_endless k u)).
  { intros k u. exists 200, "OK", Sample.full_page. split; [reflexivity|].
    vm_compute. discriminate. }
  split; [exact Hfull|].
  exact (full_pages_never_end constructor Demo.api_endless 2023 7 Hfull).
Defined.


Lemma total_is_sum_of_matching_bills_witness :
  in_safe_range Runs.two_years ∧
  map exact_of (List.filter (concerns "Alice" "2023") (included Runs.two_years)) = [2400] ∧
  total_of (processBillsData Runs.two_years) "Alice" "2023" = Some 2400.
Proof.
  assert (Hsafe : in_safe_range Runs.two_years) by (vm_compute; discriminate).
  split; [exact Hsafe|]. split; [reflexivity|].
  rewrite (total_is_sum_of_matching_bills Runs.two_years "Alice" "2023" Hsafe).
  reflexivity.
Defined.

Lemma total_column_accounts_for_every_bill_witness :
  List.NoDup [2023; 2022] ∧
  map fst Runs.two_years = map JS.Number_toString [2022; 2023] ∧
  in_safe_range Runs.two_years ∧
  included_amount Runs.two_years = 3200 ∧
  sumZ (map totalAmountCents
          (sortedCreators (processBillsData Runs.two_years) [2023; 2022])) = 3200.
Proof.
  assert (Hnd : List.NoDup [2023; 2022]).
  { repeat constructor; simpl; intuition lia. }
  assert (Hsafe : in_safe_range Runs.two_years) by (vm_compute; discriminate).
  split; [exact Hnd|]. split; [reflexivity|]. split; [exact Hsafe|].
  split; [reflexivity|].
  rewrite (total_column_accounts_for_every_bill Runs.two_years [2023; 2022] Hnd).
  - reflexivity.
  - intros k Hk.
    change (map fst Runs.two_years) with ["2022"; "2023"] in Hk.
    change (map JS.Number_toString [2023; 2022]) with ["2023"; "2022"].
    revert Hk. rewrite !elem_of_cons, !elem_of_nil. tauto.
  - exact Hsafe.
Defined.

Lemma offered_value_selects_its_year_witness :
  Forall (fun y => Demo.parseInt (JS.Number_toString y) = Some y) [2022; 2023] ∧
  Demo.parseInt "all" = None ∧
  yearsToProcess Demo.browser [2022; 2023] "2022" = Some [2022] ∧
  ((("2022" : string) = "all" ∧
    yearsToProcess Demo.browser [2022; 2023] "2022" = Some [2022; 2023]) ∨
   exists y, In y [2022; 2023] ∧ "2022" = JS.Number_toString y ∧
             yearsToProcess Demo.browser [2022; 2023] "2022" = Some [y]).
Proof.
  assert (Hparse : Forall (fun y => Demo.parseInt (JS.Number_toString y) = Some y)
                          [2022; 2023]).
  { repeat constructor. }
  split; [exact Hparse|]. split; [reflexivity|]. split; [reflexivity|].
  apply (offered_value_selects_its_year Demo.browser [2022; 2023] "2022" Hparse eq_refl).
  right. right. left. reflexivity.
Defined.

Lemma failed_export_reenables_controls_witness :
  let run := exportData constructor Demo.browser (Demo.ready "all") Demo.api_down_2022 5 in
  let e := http_error 500 "Internal Server Error" in
  run = (run.1, ExportFailed e) ∧
  saved_files run.1 = [] ∧
  exists mid,
    run.1 =
    [Dom (SetButtonDisabled true); Dom (SetSelectDisabled true);
     Dom (SetButtonText "Getting available years...")] ++ mid ++
    [LogExportError e; Dom (SetButtonText "Export failed - check console");
     Dom (SetButtonDisabled false); Dom (SetSelectDisabled false)].
Proof.
  cbv zeta.
  set (run := exportData constructor Demo.browser (Demo.ready "all") Demo.api_down_2022 5).
  assert (Hrun : run = (run.1, ExportFailed (http_error 500 "Internal Server Error")))
    by (vm_compute; reflexivity).
  split; [exact Hrun|]. split; [vm_compute; reflexivity|].
  exact (failed_export_reenables_controls constructor Demo.browser (Demo.ready "all")
           Demo.api_down_2022 5 _ _ Hrun).
Defined.

Lemma empty_year_list_fails_export_witness :
  let run := exportData constructor Demo.browser (Demo.ready "all") Demo.api_no_years 5 in
  Demo.api_no_years 0%nat (buildApiUrl constructor (host_fullYear Demo.browser) 0) =
    Resolved true 200 "OK" (inr (Demo.with_years [] [] [])) ∧
  run.2 = ExportFailed no_years_error ∧
  export_requests run.1 = [buildApiUrl constructor 2024 0] ∧
  saved_files run.1 = [].
Proof.
  cbv zeta. split; [reflexivity|].
  exact (empty_year_list_fails_export constructor Demo.browser (Demo.ready "all")
           Demo.api_no_years 5 200 "OK" (Demo.with_years [] [] [])
           {| meta_count := Some 0; meta_years := Some [] |}
           eq_refl eq_refl eq_refl eq_refl eq_refl).
Defined.

Lemma export_fetches_years_in_sequence_witness :
  let run := exportData constructor Demo.browser (Demo.ready "all") Demo.api 5 in
  run.2 = Exported
    (generateCSV Sample.intl
       (processBillsData
          [("2022", {| bills := [Sample.bill "x" (Some 1000) None "USD" (Some "c1")];
                       campaigns := <["c1" := Sample.alice]> ∅ |});
           ("2023", {| bills := [Sample.bill "y" (Some 2000) None "USD" (Some "c1")];
                       campaigns := <["c1" := Sample.alice]> ∅ |})])
       [2023; 2022]) ∧
  map (fun u => (url_year u, url_offset u)) (export_requests run.1) =
    [(2024, 0); (2023, 0); (2022, 0)] ∧
  exists (allYears years : list Z) (counts : list nat),
    (getAvailableYears constructor Demo.browser (Demo.api 0%nat)).2 = Listed allYears ∧
    yearsToProcess Demo.browser allYears "all" = Some years ∧
    length counts = length years ∧
    Forall (fun n => (0 < n)%nat) counts ∧
    export_requests run.1 =
      buildApiUrl constructor 2024 0 ::
      concat (zip_with (fun y n => offsets_from constructor y 0 n) years counts).
Proof.
  cbv zeta.
  set (run := exportData constructor Demo.browser (Demo.ready "all") Demo.api 5).
  set (csv := generateCSV _ _ _).
  assert (Hrun : run = (run.1, Exported csv)) by (vm_compute; reflexivity).
  split; [by rewrite Hrun|]. split; [vm_compute; reflexivity|].
  exact (export_fetches_years_in_sequence constructor Demo.browser (Demo.ready "all")
           Demo.api 5 _ _ Hrun).
Defined.

Lemma years_are_aggregated_in_ascending_order_witness :
  let run := fetch_years constructor Demo.api 5 [2023; 2022] 1 [] in
  run = (run.1, Fetched (Demo.fetched_object run)) ∧
  map fst (Demo.fetched_object run) = [2023; 2022] ∧
  map fst (Object_entries (Demo.fetched_object run)) = ["2022"; "2023"] ∧
  exists keys,
    map fst (Object_entries (Demo.fetched_object run)) = map JS.Number_toString keys ∧
    StronglySorted Z.lt keys ∧
    (forall y, In y keys <-> In y [2023; 2022]).
Proof.
  cbv zeta.
  set (run := fetch_years constructor Demo.api 5 [2023; 2022] 1 []).
  assert (Hrun : run = (run.1, Fetched (Demo.fetched_object run)))
    by (vm_compute; reflexivity).
  split; [exact Hrun|]. split; [vm_compute; reflexivity|].
  split; [vm_compute; reflexivity|].
  apply (years_are_aggregated_in_ascending_order constructor Demo.api 5 [2023; 2022] 1
           _ _ Hrun).
  repeat constructor.
Defined.


(** The selector built on a page without the button, and the export of the
    end-to-end scenario. *)
Example selector_of_the_demo_server :
  (createExportButton constructor Demo.browser
     {| has_button := false; has_select := false; select_value := EmptyString;
        link_download := true |}
     (Demo.api 0%nat)).2 =
  Some [("all", "All Years"); ("2023", "2023"); ("2022", "2022")].
Proof. vm_compute. reflexivity. Qed.

Example export_of_the_demo_server :
  saved_files (exportData constructor Demo.browser (Demo.ready "all") Demo.api 5).1 =
  [("patreon_membership_data_2024-05-17.csv",
    "Creator,Currency,URL,Total Spend,Total Spend 2023,Total Spend 2022" +:+ newline +:+
    "Alice,USD,https://www.patreon.com/alice,$30.00,$20.00,$10.00")].
Proof. vm_compute. reflexivity. Qed.

(** X21.  While the yearly amounts of each creator stay together within 2^53,
    the total of a creator adds one term per requested year, repeated or
    not: over two lists of years put together it is the sum of the totals
    over each, so a year that is requested twice counts twice in Total
    Spend while its column shows it once per occurrence. *)
Theorem total_spend_is_additive_in_years
    (creatorData : list (string * creator)) (years years' : list Z) :
  totals_safe creatorData (years ++ years') ->
  totals_safe creatorData (years ++ years) ->
  map totalAmountCents (creatorsArray creatorData (years ++ years')) =
  zip_with Z.add (map totalAmountCents (creatorsArray creatorData years))
                 (map totalAmountCents (creatorsArray creatorData years')) ∧
  map totalAmountCents (creatorsArray creatorData (years ++ years)) =
  map (fun t => 2 * t) (map totalAmountCents (creatorsArray creatorData years)).
Proof.
  assert (Hadd : forall c ys ys',
            sumZ (map (fun year => Z.abs (spend_in c year)) (ys ++ ys')) <= 2 ^ 53 ->
            fold_left (fun total year => JS.add total (spend_in c year)) (ys ++ ys') 0 =
            fold_left (fun total year => JS.add total (spend_in c year)) ys 0 +
            fold_left (fun total year => JS.add total (spend_in c year)) ys' 0).
  { intros c ys ys' Hsafe. rewrite map_app, sumZ_app in Hsafe.
    pose proof (sumZ_abs_nonneg (spend_in c) ys).
    pose proof (sumZ_abs_nonneg (spend_in c) ys').
    rewrite !fold_left_spend.
    - rewrite map_app, sumZ_app. lia.
    - cbn [Z.abs]. lia.
    - cbn [Z.abs]. lia.
    - cbn [Z.abs]. rewrite map_app, sumZ_app. lia. }
  unfold creatorsArray, totals_safe.
  generalize (Map_values creatorData) as cs. intros cs H1 H2.
  split.
  - clear H2. induction H1 as [|c cs Hc _ IH]; [done|].
    cbn [map zip_with totalAmountCents]. by rewrite IH, Hadd.
  - clear H1. induction H2 as [|c cs Hc _ IH]; [done|].
    cbn [map totalAmountCents]. rewrite IH, Hadd by done. f_equal. lia.
Qed.

Lemma total_spend_is_additive_in_years_witness :
  let creatorData := processBillsData Runs.two_years in
  totals_safe creatorData ([2022] ++ [2023]) ∧
  totals_safe creatorData ([2022] ++ [2022]) ∧
  map totalAmountCents (creatorsArray creatorData [2022]) = [700; 100] ∧
  map totalAmountCents (creatorsArray creatorData [2023]) = [0; 2400] ∧
  map totalAmountCents (creatorsArray creatorData ([2022] ++ [2023])) = [700; 2500] ∧
  map totalAmountCents (creatorsArray creatorData ([2022] ++ [2022])) = [1400; 200].
Proof.
  cbv zeta.
  assert (H1 : totals_safe (processBillsData Runs.two_years) ([2022] ++ [2023])).
  { repeat (apply List.Forall_cons; [vm_compute; discriminate|]). apply List.Forall_nil. }
  assert (H2 : totals_safe (processBillsData Runs.two_years) ([2022] ++ [2022])).
  { repeat (apply List.Forall_cons; [vm_compute; discriminate|]). apply List.Forall_nil. }
  split; [exact H1|]. split; [exact H2|].
  split; [reflexivity|]. split; [reflexivity|].
  destruct (total_spend_is_additive_in_years (processBillsData Runs.two_years)
              [2022] [2023] H1 H2) as [Ha Hb].
  split; [rewrite Ha | rewrite Hb]; reflexivity.
Defined.
